(** * VATSIM-FPN: the resolution engine, embedded and verified

    A shallow embedding of the algorithmic core of the flight-plan lookup
    application: the VATSpy reference-data parser and its cache
    (utils/vatspy-parser.ts), and, from the page component, the
    flight-category classifier, the ETA computation, the point-in-polygon
    tests and the FIR detection.

    JavaScript numbers are IEEE 754 binary64 values; they are modelled by
    Rocq's primitive [float], which is the same format with the same
    rounding, so that every arithmetic step and comparison evaluates to
    the value the program computes. *)

From Stdlib Require Import ZArith Bool List Sorted Ascii String Floats DecimalString.
From stdpp Require Import base option list gmap strings.

Local Open Scope Z_scope.
Local Open Scope list_scope.

(** ** The JavaScript values and built-ins the program relies on *)

Module JS.

Abbreviation number := float (only parsing).

(** [ToBoolean] on a number: [0], [-0] and [NaN] are falsy. *)
Definition truthy (x : number) : bool :=
  negb (PrimFloat.eqb x 0%float || PrimFloat.is_nan x).

(** [v || d] where [v] is a number or [undefined] ([None]). *)
Definition orElse (v : option number) (d : number) : number :=
  match v with
  | Some x => if truthy x then x else d
  | None => d
  end.

(** [!s] is false exactly for the non-empty strings. *)
Definition nonEmpty (s : string) : bool :=
  match s with
  | EmptyString => false
  | String _ _ => true
  end.

(** [s || d] on strings, where [None] is [undefined]. *)
Definition strOrElse (v : option string) (d : string) : string :=
  match v with
  | Some s => if nonEmpty s then s else d
  | None => d
  end.

(** The integer [z] as a number (exact up to 2^53, rounded beyond). *)
Definition ofZ (z : Z) : number :=
  SF2Prim (binary_normalize prec emax z 0 false).

(** [Math.floor]: the greatest integral number not above [x]; zeros,
    infinities and NaN are returned unchanged. *)
Definition Math_floor (x : number) : number :=
  match Prim2SF x with
  | S754_finite s m e =>
      if 0 <=? e then x
      else
        let d := 2 ^ (- e) in
        if s then ofZ (- ((Zpos m + d - 1) / d)) else ofZ (Zpos m / d)
  | _ => x
  end.

(** [Math.round]: the nearest integral number, ties towards +infinity;
    a result of zero keeps the sign of a negative argument. *)
Definition Math_round (x : number) : number :=
  let f := Math_floor x in
  if PrimFloat.eqb f x then x
  else if PrimFloat.is_nan x then x
  else
    let r := if PrimFloat.ltb (x - f) 0.5 then f else (f + 1)%float in
    if PrimFloat.eqb r 0 && PrimFloat.ltb x 0 then (- 0)%float else r.

(** The integer a number denotes, when it is finite and integral. *)
Definition toInteger (x : number) : option Z :=
  match Prim2SF x with
  | S754_zero _ => Some 0
  | S754_finite s m e =>
      let d := 2 ^ (- e) in
      if 0 <=? e then Some (cond_Zopp s (Zpos m * 2 ^ e))
      else if Zpos m mod d =? 0 then Some (cond_Zopp s (Zpos m / d))
      else None
  | _ => None
  end.

Definition decimal (z : Z) : string :=
  NilZero.string_of_int (Z.to_int z).

(** [Number::toString], as a template literal applies it. Integral values
    up to 2^53 in magnitude print as their decimal digits; the rendering
    of every other finite value (shortest round-trip digits, exponent
    notation) is left to the host function [other]. *)
Definition Number_toString (other : number -> string) (x : number) : string :=
  if PrimFloat.is_nan x then "NaN"
  else if PrimFloat.eqb x infinity then "Infinity"
  else if PrimFloat.eqb x neg_infinity then "-Infinity"
  else match toInteger x with
       | Some z => if Z.abs z <=? 2 ^ 53 then decimal z else other x
       | None => other x
       end.

(** *** Strings

    A string is a sequence of code units; the model keeps the code units
    below 256. *)

(** [WhiteSpace] and [LineTerminator] code units: TAB, LF, VT, FF, CR,
    SP and NBSP. *)
Definition isWhiteSpace (c : ascii) : bool :=
  match nat_of_ascii c with
  | 9 | 10 | 11 | 12 | 13 | 32 | 160 => true
  | _ => false
  end%nat.

Fixpoint trimStart (s : string) : string :=
  match s with
  | String c r => if isWhiteSpace c then trimStart r else s
  | EmptyString => s
  end.

(** [trimEnd], by recursion from the right end. *)
Fixpoint trimEnd (s : string) : string :=
  match s with
  | EmptyString => EmptyString
  | String c r =>
      match trimEnd r with
      | EmptyString => if isWhiteSpace c then EmptyString else String c EmptyString
      | r' => String c r'
      end
  end.

Definition trim (s : string) : string := trimEnd (trimStart s).

Definition startsWith (s p : string) : bool := String.prefix p s.

Fixpoint lastChar (s : string) : option ascii :=
  match s with
  | EmptyString => None
  | String c EmptyString => Some c
  | String _ r => lastChar r
  end.

(** [s.endsWith(c)] for a one-character search string. *)
Definition endsWithChar (s : string) (c : ascii) : bool :=
  match lastChar s with
  | Some d => Ascii.eqb c d
  | None => false
  end.

(** [s.split(sep)] for a one-character separator: the pieces between the
    occurrences of [sep]; never an empty array. *)
Fixpoint split (sep : ascii) (s : string) : list string :=
  match s with
  | EmptyString => [EmptyString]
  | String c r =>
      if Ascii.eqb c sep then EmptyString :: split sep r
      else match split sep r with
           | p :: ps => String c p :: ps
           | [] => [String c EmptyString]
           end
  end.

(** *** [parseFloat] *)

Definition digitOf (c : ascii) : option Z :=
  let n := Z.of_nat (nat_of_ascii c) in
  if (48 <=? n) && (n <=? 57) then Some (n - 48) else None.

(** The longest prefix of decimal digits: its value, its length, the rest. *)
Fixpoint takeDigits (acc : Z) (len : Z) (s : string) : Z * Z * string :=
  match s with
  | String c r =>
      match digitOf c with
      | Some d => takeDigits (10 * acc + d) (len + 1) r
      | None => (acc, len, s)
      end
  | EmptyString => (acc, len, s)
  end.

Definition takeSign (s : string) : bool * string :=
  match s with
  | String "-" r => (true, r)
  | String "+" r => (false, r)
  | _ => (false, s)
  end.

(** An [ExponentPart] at the head of [s], if there is a complete one. *)
Definition takeExponent (s : string) : Z :=
  match s with
  | String c r =>
      if Ascii.eqb c "e" || Ascii.eqb c "E" then
        let '(neg, r1) := takeSign r in
        let '(v, len, _) := takeDigits 0 0 r1 in
        if len =? 0 then 0 else if neg then - v else v
      else 0
  | EmptyString => 0
  end.

(** The number nearest to [m * 10^e] (ties to even), [m > 0]. *)
Definition decimalToNumber (neg : bool) (m e : Z) : number :=
  if m =? 0 then (if neg then neg_zero else zero)
  else
    let n := m * 10 ^ (Z.max e 0) in
    let d := 10 ^ (Z.max (- e) 0) in
    let '(q, e', l) := SFdiv_core_binary prec emax n 0 d 0 in
    SF2Prim (binary_round_aux prec emax neg q e' l).

(** [parseFloat(s)]: leading white space is skipped, the longest prefix
    that is a [StrDecimalLiteral] is converted, and [NaN] is returned when
    there is none. *)
Definition parseFloat (s : string) : number :=
  let '(neg, s1) := takeSign (trimStart s) in
  if startsWith s1 "Infinity" then (if neg then neg_infinity else infinity)
  else
    let '(ip, ilen, s2) := takeDigits 0 0 s1 in
    let '(m, flen, s3) :=
      match s2 with
      | String "." r =>
          let '(m, tlen, s3) := takeDigits ip ilen r in (m, tlen - ilen, s3)
      | _ => (ip, 0, s2)
      end in
    if ilen + flen =? 0 then nan
    else decimalToNumber neg m (takeExponent s3 - flen).

End JS.

(** The built-ins whose results the model does not compute: they are taken
    from the host, and every theorem holds for every host. *)
Record Host := {
  Math_sin : float -> float;
  Math_cos : float -> float;
  Math_atan2 : float -> float -> float;
  (** [Number::toString] beyond the integral values of [JS.Number_toString] *)
  toStringOther : float -> string;
  (** [new Date().getTime()] *)
  Date_now : float;
  (** [new Date(t).toUTCString()] *)
  Date_toUTCString : float -> string;
  (** [new Date(t).toLocaleTimeString([], ...)] with the options of the page *)
  Date_toLocaleTimeString : float -> string;
  (** [String.prototype.toUpperCase] *)
  toUpperCase : string -> string
}.

(** A host for concrete runs: the trigonometric functions are not needed
    where it is used, and upper-casing leaves upper-case codes unchanged. *)
Definition plainHost : Host :=
  {| Math_sin := fun x => x;
     Math_cos := fun x => x;
     Math_atan2 := fun x _ => x;
     toStringOther := fun _ => "?";
     Date_now := 0;
     Date_toUTCString := fun _ => "Thu, 01 Jan 1970 00:00:00 GMT";
     Date_toLocaleTimeString := fun _ => "00:00 UTC";
     toUpperCase := fun s => s |}.

(** ** utils/vatspy-parser.ts *)

Module Vatspy.

Record VatspyAirport := {
  icao : string;
  name : string;
  latitude : float;
  longitude : float;
  iata : option string;
  fir : string;
  isPseudo : bool
}.

(** [parts[i]] of an array known to hold the index. *)
Definition part (parts : list string) (i : nat) : string :=
  nth i parts EmptyString.

(** The record an airport line describes, for a line that splits into at
    least seven fields: [ICAO|Name|Lat|Lon|IATA|FIR|IsPseudo]. *)
Definition recordOf (parts : list string) : VatspyAirport :=
  let iata := JS.trim (part parts 4) in
  {| icao := JS.trim (part parts 0);
     name := JS.trim (part parts 1);
     latitude := JS.parseFloat (part parts 2);
     longitude := JS.parseFloat (part parts 3);
     iata := if JS.nonEmpty iata then Some iata else None;
     fir := JS.trim (part parts 5);
     isPseudo := false |}.

(** The condition under which the line is stored:
    [!isPseudo && !airports.has(icao) && icao && name]. *)
Definition admits (airports : gmap string VatspyAirport) (parts : list string) : bool :=
  let icao := JS.trim (part parts 0) in
  let name := JS.trim (part parts 1) in
  let isPseudo := String.eqb (JS.trim (part parts 6)) "1" in
  negb isPseudo && negb (bool_decide (is_Some (airports !! icao)))
  && JS.nonEmpty icao && JS.nonEmpty name.

(** The state of the loop over the lines: the map under construction and
    the section flag. *)
Record loopState := {
  airports : gmap string VatspyAirport;
  inAirportsSection : bool
}.

(** One iteration of [for (const line of lines)]. *)
Definition parseLine (st : loopState) (line : string) : loopState :=
  let trimmedLine := JS.trim line in
  if negb (JS.nonEmpty trimmedLine) || JS.startsWith trimmedLine ";" then st
  else if JS.startsWith trimmedLine "[" && JS.endsWithChar trimmedLine "]" then
    {| airports := airports st;
       inAirportsSection := String.eqb trimmedLine "[Airports]" |}
  else if negb (inAirportsSection st) then st
  else
    let parts := JS.split "|" trimmedLine in
    if (7 <=? length parts)%nat then
      if admits (airports st) parts then
        {| airports := <[icao (recordOf parts) := recordOf parts]> (airports st);
           inAirportsSection := inAirportsSection st |}
      else st
    else st.

Definition parseLines (lines : list string) : loopState :=
  fold_left parseLine lines {| airports := ∅; inAirportsSection := false |}.

(** The map [parseVatspyData] builds when the cache is empty.
    [fileContent] is the text the fetch delivered, [None] when the fetch
    or the read of its body failed: the [catch] then leaves the map empty. *)
Definition parseVatspyData (fileContent : option string) : gmap string VatspyAirport :=
  match fileContent with
  | Some text => airports (parseLines (JS.split "010" text))
  | None => ∅
  end.

(** [getAirportByIcao], on the snapshot [parseVatspyData] resolved to. *)
Definition getAirportByIcao (h : Host) (snapshot : gmap string VatspyAirport)
    (icao : string) : option VatspyAirport :=
  snapshot !! toUpperCase h icao.

(** *** Notions used in the statements about the parser *)

(** The fields of a line, as the loop body splits them. *)
Definition fields (line : string) : list string := JS.split "|" (JS.trim line).

(** [parts[6].trim() === '1'] *)
Definition pseudoFlag (parts : list string) : bool :=
  String.eqb (JS.trim (part parts 6)) "1".

(** A line that reaches the airport branch of the loop body: not blank,
    not a comment, not a section header. *)
Definition dataLine (line : string) : bool :=
  let t := JS.trim line in
  JS.nonEmpty t && negb (JS.startsWith t ";")
  && negb (JS.startsWith t "[" && JS.endsWithChar t "]").

(** The conditions of admission that depend on the line alone. *)
Definition admissible (parts : list string) : Prop :=
  (7 <= length parts)%nat /\ pseudoFlag parts = false /\
  icao (recordOf parts) <> EmptyString /\ name (recordOf parts) <> EmptyString.

(** The lines of a dataset: [fileContent.split('\n')]. *)
Definition linesOf (text : string) : list string := JS.split "010" text.

(** A small dataset: a section that is ignored, then the airports section
    with a duplicated code, a pseudo airport and a line whose coordinates
    are not numbers. *)
Definition sampleLines : list string :=
  [ "; reference data";
    "[Countries]";
    "United States|K|Center|x|y|z|0";
    "[Airports]";
    "KJFK|John F Kennedy Intl|40.6413|-73.7781|JFK|KZNY|0";
    "KJFK|Kennedy (duplicate)|40.6|-73.7|JFK|KZNY|0";
    "KPSE|Pseudo Field|41.0|-72.0||KZNY|1";
    "KBAD|Bad Coordinates|abc|xyz|BAD|KZNY|0";
    "EGLL|London Heathrow|51.4775|-0.461389|LHR|EGTT|0" ]%string.

Definition newline : string := String "010" EmptyString.

Definition sampleText : string := String.concat newline sampleLines.

Definition inAirports : loopState :=
  {| airports := ∅; inAirportsSection := true |}.

Definition airportAt (code : string) (lat lon : float) : VatspyAirport :=
  {| icao := code; name := "Airport"; latitude := lat; longitude := lon;
     iata := None; fir := "FIR"; isPseudo := false |}.

End Vatspy.

(** ** The flight category of a decoded METAR (page component) *)

Module Weather.

Record IVisibility := { value : float }.

Record ICloud := {
  quantity : string;
  height : option float
}.

(** The fields of the decoded observation the classifier reads; [None]
    is an absent ([undefined]) field. *)
Record Decoded := {
  visibility : option IVisibility;
  clouds : option (list ICloud)
}.

Record FlightCategory := {
  category : string;
  color : string;
  bg : string
}.

Definition isCeilingLayer (c : ICloud) : bool :=
  String.eqb (quantity c) "BKN" || String.eqb (quantity c) "OVC".

(** [decoded.visibility?.value || 10] *)
Definition visibilityOf (decoded : Decoded) : float :=
  JS.orElse (value <$> visibility decoded) 10.

(** [decoded.clouds?.find(c => c.quantity === 'BKN' || c.quantity === 'OVC')] *)
Definition ceilingLayer (decoded : Decoded) : option ICloud :=
  match clouds decoded with
  | Some layers => find isCeilingLayer layers
  | None => None
  end.

(** [ceilingLayer?.height || 10000] *)
Definition ceilingOf (decoded : Decoded) : float :=
  JS.orElse (match ceilingLayer decoded with
             | Some c => height c
             | None => None
             end) 10000.

Definition getFlightCategory (decoded : Decoded) : FlightCategory :=
  let visibility := visibilityOf decoded in
  let ceiling := ceilingOf decoded in
  if PrimFloat.ltb visibility 1 || PrimFloat.ltb ceiling 500 then
    {| category := "LIFR"; color := "text-purple-700";
       bg := "bg-purple-100 border-purple-200" |}
  else if PrimFloat.ltb visibility 3 || PrimFloat.ltb ceiling 1000 then
    {| category := "IFR"; color := "text-red-700";
       bg := "bg-red-100 border-red-200" |}
  else if PrimFloat.ltb visibility 5 || PrimFloat.ltb ceiling 3000 then
    {| category := "MVFR"; color := "text-yellow-700";
       bg := "bg-yellow-100 border-yellow-200" |}
  else
    {| category := "VFR"; color := "text-green-700";
       bg := "bg-green-100 border-green-200" |}.

(** *** Notions used in the statements about the classifier *)

(** The ceiling the glossary of the specification defines: the height of
    the lowest broken or overcast layer. [lowerOf] keeps the lower of two
    heights, [lowestCeiling] the lowest height among the BKN/OVC layers. *)
Definition lowerOf (a b : float) : float :=
  if PrimFloat.ltb b a then b else a.

Definition lowestCeiling (layers : list ICloud) : option float :=
  fold_right
    (fun c acc =>
       match (if isCeilingLayer c then height c else None), acc with
       | Some x, Some y => Some (lowerOf x y)
       | Some x, None => Some x
       | None, _ => acc
       end)
    None layers.

(** Layer [a] is reported at or below layer [b]. *)
Definition heightLe (a b : ICloud) : Prop :=
  match height a, height b with
  | Some x, Some y => PrimFloat.leb x y = true
  | _, _ => False
  end.

(** An observation with the given visibility value and cloud layers. *)
Definition observation (v : float) (layers : list ICloud) : Decoded :=
  {| visibility := Some {| value := v |}; clouds := Some layers |}.

Definition layer (q : string) (h : float) : ICloud :=
  {| quantity := q; height := Some h |}.

End Weather.

(** ** FIR detection: point in polygon (page component) *)

Module Airspace.

(** A GeoJSON position, [[longitude, latitude]]. *)
Definition Position : Type := float * float.

Definition Ring : Type := list Position.

(** The edge test of the ray casting:
    [((yi > lat) !== (yj > lat)) && (lng < (xj - xi) * (lat - yi) / (yj - yi) + xi)] *)
Definition crosses (lng lat : float) (pi pj : Position) : bool :=
  let '(xi, yi) := pi in
  let '(xj, yj) := pj in
  xorb (PrimFloat.ltb lat yi) (PrimFloat.ltb lat yj)
  && PrimFloat.ltb lng ((xj - xi) * (lat - yi) / (yj - yi) + xi)%float.

(** [for (let i = 0, j = ring.length - 1; i < ring.length; j = i++)]:
    [pj] is the vertex before the one visited, the last one at the start. *)
Fixpoint ringLoop (lng lat : float) (pj : Position) (rest : Ring) (inside : bool) : bool :=
  match rest with
  | [] => inside
  | pi :: rest' =>
      ringLoop lng lat pi rest'
        (if crosses lng lat pi pj then negb inside else inside)
  end.

(** The value of [inside] after the inner loop over one ring. *)
Definition insideRing (point : Position) (ring : Ring) : bool :=
  let '(lng, lat) := point in
  match last ring with
  | Some pj => ringLoop lng lat pj ring false
  | None => false
  end.

(** The outer loop of [isPointInPolygon] from ring [ringIndex] on. *)
Fixpoint ringsLoop (point : Position) (ringIndex : nat) (rings : list Ring) : bool :=
  match rings with
  | [] => true
  | ring :: rings' =>
      let inside := insideRing point ring in
      if (ringIndex =? 0)%nat && negb inside then false
      else if (0 <? ringIndex)%nat && inside then false
      else ringsLoop point (S ringIndex) rings'
  end.

Definition isPointInPolygon (point : Position) (polygon : list Ring) : bool :=
  ringsLoop point 0 polygon.

Definition isPointInMultiPolygon (point : Position) (multiPolygon : list (list Ring)) : bool :=
  existsb (isPointInPolygon point) multiPolygon.

(** [feature.geometry]: the two kinds the detection reads, and any other
    GeoJSON geometry, which never matches. *)
Inductive Geometry :=
  | Polygon (coordinates : list Ring)
  | MultiPolygon (coordinates : list (list Ring))
  | OtherGeometry (type : string).

(** [feature.properties]; [None] is an absent property. *)
Record Properties := {
  prop_id : option string;
  prop_oceanic : option string
}.

Record Feature := {
  geometry : Geometry;
  properties : Properties
}.

(** The result [{ id, name, isOceanic }]. *)
Record FIR := {
  fir_id : string;
  fir_name : string;
  isOceanic : bool
}.

Definition isMatch (pilotPoint : Position) (feature : Feature) : bool :=
  match geometry feature with
  | MultiPolygon coordinates => isPointInMultiPolygon pilotPoint coordinates
  | Polygon coordinates => isPointInPolygon pilotPoint coordinates
  | OtherGeometry _ => false
  end.

(** [feature.properties.oceanic === '1'] *)
Definition oceanic (feature : Feature) : bool :=
  bool_decide (prop_oceanic (properties feature) = Some "1"%string).

(** The entry pushed for a matching feature. *)
Definition firOf (firNamesMap : gmap string string) (feature : Feature) : FIR :=
  let firId := JS.strOrElse (prop_id (properties feature)) "Unknown FIR" in
  {| fir_id := firId;
     fir_name := JS.strOrElse (firNamesMap !! firId) firId;
     isOceanic := oceanic feature |}.

(** [matchingFIRs] after the loop over [data.features]. *)
Definition collectMatches (firNamesMap : gmap string string) (pilotPoint : Position)
    (features : list Feature) : list FIR :=
  fold_left
    (fun matchingFIRs feature =>
       if isMatch pilotPoint feature
       then matchingFIRs ++ [firOf firNamesMap feature]
       else matchingFIRs)
    features [].

(** [detectCurrentFIR], on the parsed boundaries and FIR names;
    [pilotPoint] is [[pilot.longitude, pilot.latitude]]. *)
Definition detectCurrentFIR (firNamesMap : gmap string string)
    (features : list Feature) (pilotPoint : Position) : option FIR :=
  let matchingFIRs := collectMatches firNamesMap pilotPoint features in
  if (length matchingFIRs =? 0)%nat then None
  else
    let landBasedFIRs := List.filter (fun fir => negb (isOceanic fir)) matchingFIRs in
    if (0 <? length landBasedFIRs)%nat then landBasedFIRs !! 0%nat
    else matchingFIRs !! 0%nat.

(** *** Notions used in the statements about the detection *)

(** A square ring with corners (a,a) and (b,b), not closed. *)
Definition square (a b : float) : Ring := [(a, a); (b, a); (b, b); (a, b)].

(** The same ring with its first vertex repeated at the end. *)
Definition closed (ring : Ring) : Ring :=
  match ring with
  | [] => []
  | first :: _ => ring ++ [first]
  end.

(** A feature that contains the point and is land-based. *)
Definition landMatch (point : Position) (feature : Feature) : bool :=
  isMatch point feature && negb (oceanic feature).

(** Two overlapping regions, the oceanic one listed first. *)
Definition oceanicFeature : Feature :=
  {| geometry := Polygon [square 0 10];
     properties := {| prop_id := Some "KZWY"%string; prop_oceanic := Some "1"%string |} |}.

Definition landFeature : Feature :=
  {| geometry := MultiPolygon [[square 20 30]; [square 0 10; square 4 6]];
     properties := {| prop_id := Some "KZNY"%string; prop_oceanic := Some "0"%string |} |}.

End Airspace.

(** ** Distance and ETA (page component) *)

Module Eta.

Record FlightPlan := { arrival : string }.

(** The fields of [VatsimPilot] the computation reads. *)
Record VatsimPilot := {
  latitude : float;
  longitude : float;
  groundspeed : float;
  flight_plan : option FlightPlan
}.

Record Result := {
  duration : string;
  etaUTC : string;
  etaLocal : string;
  distance : float
}.

(** [Math.PI] *)
Definition Math_PI : float := 0x1.921fb54442d18p+1.

(** [R = 3440.065], the radius of the Earth in nautical miles. *)
Definition R : float := 0x1.ae02147ae147bp+11.

(** Haversine distance in nautical miles. *)
Definition calculateDistance (h : Host) (lat1 lon1 lat2 lon2 : float) : float :=
  let dLat := ((lat2 - lat1) * Math_PI / 180)%float in
  let dLon := ((lon2 - lon1) * Math_PI / 180)%float in
  let a := (Math_sin h (dLat / 2) * Math_sin h (dLat / 2) +
            Math_cos h (lat1 * Math_PI / 180) * Math_cos h (lat2 * Math_PI / 180) *
            Math_sin h (dLon / 2) * Math_sin h (dLon / 2))%float in
  let c := (2 * Math_atan2 h (PrimFloat.sqrt a) (PrimFloat.sqrt (1 - a)))%float in
  (R * c)%float.

(** The duration string of [calculateETA], from the flight time in hours. *)
Definition durationString (h : Host) (timeHours : float) : string :=
  let hours := JS.Math_floor timeHours in
  let minutes := JS.Math_round ((timeHours - hours) * 60)%float in
  let str := JS.Number_toString (toStringOther h) in
  if PrimFloat.ltb 0 hours
  then (str hours ++ "h " ++ str minutes ++ "m")%string
  else (str minutes ++ "m")%string.

(** [calculateETA]; [snapshot] is the airport map [getAirportByIcao]
    reads. [None] is the [null] result. *)
Definition calculateETA (h : Host) (snapshot : gmap string Vatspy.VatspyAirport)
    (pilot : VatsimPilot) : option Result :=
  match flight_plan pilot with
  | None => None
  | Some plan =>
      if negb (JS.nonEmpty (arrival plan)) || PrimFloat.leb (groundspeed pilot) 0
      then None
      else
        match Vatspy.getAirportByIcao h snapshot (arrival plan) with
        | None => None
        | Some arrivalAirport =>
            if negb (JS.truthy (Vatspy.latitude arrivalAirport))
               || negb (JS.truthy (Vatspy.longitude arrivalAirport))
            then None
            else
              let distance :=
                calculateDistance h (latitude pilot) (longitude pilot)
                  (Vatspy.latitude arrivalAirport) (Vatspy.longitude arrivalAirport) in
              let timeHours := (distance / groundspeed pilot)%float in
              let arrivalTime := (Date_now h + timeHours * 60 * 60 * 1000)%float in
              Some {| duration := durationString h timeHours;
                      etaUTC := (substring 17 5 (Date_toUTCString h arrivalTime) ++ "Z")%string;
                      etaLocal := Date_toLocaleTimeString h arrivalTime;
                      distance := JS.Math_round distance |}
        end
  end.

(** *** A pilot for concrete runs *)

Definition pilotTo (dest : string) (speed : float) : VatsimPilot :=
  {| latitude := 40; longitude := -73; groundspeed := speed;
     flight_plan := Some {| arrival := dest |} |}.

End Eta.

(** ** The cache of [parseVatspyData] under concurrent callers

    [parseVatspyData] is an [async] function: a call runs until its next
    [await], and the calls in flight are resumed one at a time, in the
    order their fetches complete. A call has two suspension points,
    [await fetch(...)] and [await response.text()]; the module variable
    [cachedAirports] is read when a call starts and written when a call
    ends. Map objects are identified by the order of their allocation. *)

Module Cache.

(** A reference to a [Map] object: its index in the heap. *)
Definition ref : Type := nat.

(** Where a call of [parseVatspyData] stands. *)
Inductive call :=
  | AwaitFetch (airports : ref)  (** suspended at [await fetch(...)] *)
  | AwaitText (airports : ref)   (** suspended at [await response.text()] *)
  | Resolved (result : ref).     (** returned: the promise holds [result] *)

Record world := {
  cachedAirports : option ref;
  heap : list (gmap string Vatspy.VatspyAirport);
  parses : nat;    (** how many times the loop over the lines has run *)
  calls : list call
}.

Definition init : world :=
  {| cachedAirports := None; heap := []; parses := 0; calls := [] |}.

Inductive event :=
  | Call                              (** a caller invokes [parseVatspyData()] *)
  | FetchDone (i : nat) (ok : bool)   (** the fetch of call [i] settles *)
  | TextDone (i : nat) (ok : bool).   (** the body read of call [i] settles *)

(** The end of a call, on both the normal and the [catch] path:
    [cachedAirports = airports; return airports]. *)
Definition finish (w : world) (i : nat) (airports : ref) : world :=
  {| cachedAirports := Some airports;
     heap := heap w;
     parses := parses w;
     calls := <[i := Resolved airports]> (calls w) |}.

(** One scheduling step. [text] is the content of the backing file. An
    event that does not match the state of its call changes nothing. *)
Definition step (text : string) (w : world) (e : event) : world :=
  match e with
  | Call =>
      match cachedAirports w with
      | Some cached =>
          {| cachedAirports := cachedAirports w; heap := heap w;
             parses := parses w; calls := calls w ++ [Resolved cached] |}
      | None =>
          {| cachedAirports := None; heap := heap w ++ [∅];
             parses := parses w;
             calls := calls w ++ [AwaitFetch (length (heap w))] |}
      end
  | FetchDone i ok =>
      match calls w !! i with
      | Some (AwaitFetch airports) =>
          if ok then
            {| cachedAirports := cachedAirports w; heap := heap w;
               parses := parses w;
               calls := <[i := AwaitText airports]> (calls w) |}
          else finish w i airports
      | _ => w
      end
  | TextDone i ok =>
      match calls w !! i with
      | Some (AwaitText airports) =>
          if ok then
            finish
              {| cachedAirports := cachedAirports w;
                 heap := <[airports := Vatspy.parseVatspyData (Some text)]> (heap w);
                 parses := S (parses w);
                 calls := calls w |}
              i airports
          else finish w i airports
      | _ => w
      end
  end.

Definition run (text : string) (events : list event) (w : world) : world :=
  fold_left (step text) events w.

Definition isResolved (c : call) : bool :=
  match c with
  | Resolved _ => true
  | _ => false
  end.

(** A completion that succeeds: a fetch or a body read that is fulfilled. *)
Definition succeeds (e : event) : bool :=
  match e with
  | Call => false
  | FetchDone _ ok | TextDone _ ok => ok
  end.

(** *** Notions used in the statements about the cache *)

(** The map object a call allocated or was handed. *)
Definition mapOf (c : call) : ref :=
  match c with
  | AwaitFetch a | AwaitText a | Resolved a => a
  end.

Definition resolvedCount (cs : list call) : nat :=
  length (List.filter isResolved cs).

(** What holds while [n] first-time callers complete: call [i] works on
    map object [i], a resolved call has filled its own object with the
    parsed data and has set the cache, and the loop over the lines ran
    once for every resolved call. *)
Record separate (text : string) (n : nat) (w : world) : Prop := {
  sep_calls : length (calls w) = n;
  sep_heap : length (heap w) = n;
  sep_own : forall i c, calls w !! i = Some c -> mapOf c = i;
  sep_data : forall i, calls w !! i = Some (Resolved i) ->
             heap w !! i = Some (Vatspy.parseVatspyData (Some text));
  sep_cache : forall i r, calls w !! i = Some (Resolved r) -> is_Some (cachedAirports w);
  sep_parses : parses w = resolvedCount (calls w)
}.

(** An event that is not a failed completion. *)
Definition noFailure (e : event) : bool :=
  match e with
  | Call => true
  | FetchDone _ ok | TextDone _ ok => ok
  end.

(** What holds in every schedule without a failed completion. The heap
    holds one map per caller that found the cache unset; these callers
    come first, and caller [i] works on map [i]; every later caller was
    handed a cached map at once; a resolved caller holds the parsed data;
    and the loop over the lines ran once per resolved caller of the first
    kind. *)
Record ownLoads (text : string) (w : world) : Prop := {
  own_heap : (length (heap w) <= length (calls w))%nat;
  own_map : forall i c, (i < length (heap w))%nat -> calls w !! i = Some c -> mapOf c = i;
  own_late : forall i c, (length (heap w) <= i)%nat -> calls w !! i = Some c ->
             isResolved c = true;
  own_data : forall i r, calls w !! i = Some (Resolved r) ->
             heap w !! r = Some (Vatspy.parseVatspyData (Some text)) /\
             is_Some (cachedAirports w);
  own_unset : cachedAirports w = None -> length (calls w) = length (heap w);
  own_cached : forall c, cachedAirports w = Some c ->
               heap w !! c = Some (Vatspy.parseVatspyData (Some text));
  own_parses : parses w = resolvedCount (take (length (heap w)) (calls w))
}.

End Cache.

(** ** [searchAirportsByName] (utils/vatspy-parser.ts)

    The search walks [Array.from(airports.values())], the values of the
    [Map] in insertion order. The map of [Vatspy] keeps no order, so the
    order of insertion is rebuilt beside it, line by line. *)

Module Search.
Import Vatspy.

(** The line is stored by the iteration that reads it in state [st]. *)
Definition stores (st : loopState) (line : string) : bool :=
  dataLine line && inAirportsSection st
  && (7 <=? length (fields line))%nat && admits (airports st) (fields line).

(** One iteration, with the values in insertion order carried along. *)
Definition orderedLine (acc : loopState * list VatspyAirport) (line : string)
    : loopState * list VatspyAirport :=
  (parseLine (fst acc) line,
   if stores (fst acc) line then snd acc ++ [recordOf (fields line)] else snd acc).

Definition orderedLines (lines : list string) : loopState * list VatspyAirport :=
  fold_left orderedLine lines ({| airports := ∅; inAirportsSection := false |}, []).

(** [Array.from(airports.values())] for the map parsed from [text]. *)
Definition valuesOf (text : string) : list VatspyAirport :=
  snd (orderedLines (linesOf text)).

(** [s.includes(t)] *)
Fixpoint includes (s t : string) : bool :=
  String.prefix t s
  || match s with
     | EmptyString => false
     | String _ r => includes r t
     end.

(** [airport.name.toLowerCase().includes(searchLower)] *)
Definition nameMatches (toLowerCase : string -> string) (searchLower : string)
    (airport : VatspyAirport) : bool :=
  includes (toLowerCase (name airport)) searchLower.

(** The loop over [airportArray], with its [break]. *)
Fixpoint searchLoop (toLowerCase : string -> string) (searchLower : string)
    (limit : float) (airportArray results : list VatspyAirport) : list VatspyAirport :=
  match airportArray with
  | [] => results
  | airport :: rest =>
      if nameMatches toLowerCase searchLower airport then
        let results' := results ++ [airport] in
        if PrimFloat.leb limit (JS.ofZ (Z.of_nat (length results'))) then results'
        else searchLoop toLowerCase searchLower limit rest results'
      else searchLoop toLowerCase searchLower limit rest results
  end.

(** [searchAirportsByName(searchTerm, limit = 10)] on the values of the
    snapshot; [None] is an omitted limit. *)
Definition searchAirportsByName (toLowerCase : string -> string)
    (values : list VatspyAirport) (searchTerm : string) (limit : option float)
    : list VatspyAirport :=
  searchLoop toLowerCase (toLowerCase searchTerm)
    (match limit with Some l => l | None => 10%float end) values [].

(** Upper- and lower-casing of the letters A-Z and a-z, for concrete runs. *)
Definition asciiUpper (c : ascii) : ascii :=
  let n := nat_of_ascii c in
  if (97 <=? n)%nat && (n <=? 122)%nat then ascii_of_nat (n - 32) else c.

Definition asciiLower (c : ascii) : ascii :=
  let n := nat_of_ascii c in
  if (65 <=? n)%nat && (n <=? 90)%nat then ascii_of_nat (n + 32) else c.

Fixpoint mapChars (f : ascii -> ascii) (s : string) : string :=
  match s with
  | EmptyString => EmptyString
  | String c r => String (f c) (mapChars f r)
  end.

(** A host that upper-cases ASCII letters. *)
Definition asciiHost : Host :=
  {| Math_sin := Math_sin plainHost;
     Math_cos := Math_cos plainHost;
     Math_atan2 := Math_atan2 plainHost;
     toStringOther := toStringOther plainHost;
     Date_now := Date_now plainHost;
     Date_toUTCString := Date_toUTCString plainHost;
     Date_toLocaleTimeString := Date_toLocaleTimeString plainHost;
     toUpperCase := mapChars asciiUpper |}.

End Search.

(** ** [parseFIRNames] (page component) *)

Module FirNames.

Record firState := {
  firNames : gmap string string;
  inFIRSection : bool
}.

(** One iteration of the loop over the lines. *)
Definition firLine (st : firState) (line : string) : firState :=
  let trimmedLine := JS.trim line in
  if String.eqb trimmedLine "[FIRs]" then
    {| firNames := firNames st; inFIRSection := true |}
  else if JS.startsWith trimmedLine "[" && negb (String.eqb trimmedLine "[FIRs]") then
    {| firNames := firNames st; inFIRSection := false |}
  else if inFIRSection st && JS.nonEmpty trimmedLine
          && negb (JS.startsWith trimmedLine ";") then
    let parts := JS.split "|" trimmedLine in
    if (2 <=? length parts)%nat then
      let firId := Vatspy.part parts 0 in
      let firName := Vatspy.part parts 1 in
      if negb (bool_decide (is_Some (firNames st !! firId)))
      then {| firNames := <[firId := firName]> (firNames st);
              inFIRSection := inFIRSection st |}
      else st
    else st
  else st.

Definition firLines (lines : list string) : firState :=
  fold_left firLine lines {| firNames := ∅; inFIRSection := false |}.

(** [parseFIRNames]; [text] is the content the fetch delivered, [None]
    when the fetch or the read failed: the [catch] returns an empty map. *)
Definition parseFIRNames (text : option string) : gmap string string :=
  match text with
  | Some t => firNames (firLines (JS.split "010" t))
  | None => ∅
  end.

(** A line of the FIRs section that names a FIR: not blank, not a
    comment, not starting a section, with at least two fields. *)
Definition namingLine (line : string) : bool :=
  let t := JS.trim line in
  JS.nonEmpty t && negb (JS.startsWith t ";") && negb (JS.startsWith t "[")
  && (2 <=? length (JS.split "|" t))%nat.

Definition idOf (line : string) : string :=
  Vatspy.part (JS.split "|" (JS.trim line)) 0.

Definition nameOf (line : string) : string :=
  Vatspy.part (JS.split "|" (JS.trim line)) 1.

End FirNames.

(** ** [getAirportCoordinates] (components/FlightMap.tsx) *)

Module FlightMap.

(** [[latitude, longitude]] of the airport, [None] for [null]. *)
Definition getAirportCoordinates (h : Host) (snapshot : gmap string Vatspy.VatspyAirport)
    (icao : string) : option (float * float) :=
  match Vatspy.getAirportByIcao h snapshot icao with
  | Some airport =>
      if JS.truthy (Vatspy.latitude airport) && JS.truthy (Vatspy.longitude airport)
      then Some (Vatspy.latitude airport, Vatspy.longitude airport)
      else None
  | None => None
  end.

End FlightMap.

(** ** [createAircraftIcon]: the icon file of an aircraft type
    (components/FlightMap.tsx) *)

Module Icon.

(** A code unit the pattern [[^a-z0-9]] does not match. *)
Definition isLowerAlnum (c : ascii) : bool :=
  let n := nat_of_ascii c in
  ((97 <=? n)%nat && (n <=? 122)%nat) || ((48 <=? n)%nat && (n <=? 57)%nat).

(** [s.replace(/[^a-z0-9]/g, '')] *)
Fixpoint keepLowerAlnum (s : string) : string :=
  match s with
  | EmptyString => EmptyString
  | String c r =>
      if isLowerAlnum c then String c (keepLowerAlnum r) else keepLowerAlnum r
  end.

(** [cleanType]; [None] is an omitted argument, which defaults to ['a20n']. *)
Definition cleanType (toLowerCase : string -> string) (aircraftType : option string)
    : string :=
  keepLowerAlnum
    (toLowerCase (match aircraftType with Some t => t | None => "a20n"%string end)).

(** [`/aircraft/${cleanType}.svg`] *)
Definition iconUrl (toLowerCase : string -> string) (aircraftType : option string)
    : string :=
  ("/aircraft/" ++ cleanType toLowerCase aircraftType ++ ".svg")%string.

(** Every code unit of the string passes the test. *)
Fixpoint allChars (f : ascii -> bool) (s : string) : bool :=
  match s with
  | EmptyString => true
  | String c r => f c && allChars f r
  end.

End Icon.

(** ** Further notions used in statements *)

Module Notions.

(** How restrictive a flight category is. *)
Definition severity (c : Weather.FlightCategory) : nat :=
  if String.eqb (Weather.category c) "LIFR" then 3
  else if String.eqb (Weather.category c) "IFR" then 2
  else if String.eqb (Weather.category c) "MVFR" then 1
  else 0.

(** Every polygon of the feature has an exterior ring. *)
Definition hasExteriors (feature : Airspace.Feature) : Prop :=
  match Airspace.geometry feature with
  | Airspace.Polygon coordinates => coordinates <> []
  | Airspace.MultiPolygon coordinates => forall polygon, In polygon coordinates -> polygon <> []
  | Airspace.OtherGeometry _ => True
  end.

(** A string of white space only. *)
Fixpoint allWhite (s : string) : bool :=
  match s with
  | EmptyString => true
  | String c r => JS.isWhiteSpace c && allWhite r
  end.

(** A string that does not begin with white space. *)
Definition startsClean (s : string) : bool :=
  match s with
  | EmptyString => true
  | String c _ => negb (JS.isWhiteSpace c)
  end.

(** The calls of a schedule. *)
Definition callCount (events : list Cache.event) : nat :=
  length (List.filter (fun e => match e with Cache.Call => true | _ => false end) events).

End Notions.

(** * Properties *)

(** ** Lists *)

Module ListFacts.

(** [find] returns the first element that satisfies the test. *)
Lemma find_first {A} (f : A -> bool) (pre post : list A) (x : A) :
  (forall y, In y pre -> f y = false) -> f x = true ->
  find f (pre ++ x :: post) = Some x.
Proof.
  intros Hpre Hx. induction pre as [|y pre IH]; simpl.
  - now rewrite Hx.
  - rewrite (Hpre y (or_introl eq_refl)). apply IH.
    intros z Hz. apply Hpre. now right.
Qed.

Lemma find_none_iff {A} (f : A -> bool) (l : list A) :
  find f l = None <-> forall y, In y l -> f y = false.
Proof.
  split.
  - intros H y Hy. destruct (f y) eqn:E; [|reflexivity].
    destruct (find f l) eqn:F; [discriminate|].
    now rewrite (find_none f l F y Hy) in E.
  - intros H. induction l as [|x l IH]; [reflexivity|]. simpl.
    rewrite (H x (or_introl eq_refl)). apply IH.
    intros y Hy. apply H. now right.
Qed.

(** In a sorted list every later element is above an earlier one. *)
Lemma sorted_after {A} (R : A -> A -> Prop) (pre post : list A) (x : A) :
  StronglySorted R (pre ++ x :: post) -> forall y, In y post -> R x y.
Proof.
  induction pre as [|z pre IH]; simpl; intros Hs y Hy.
  - apply StronglySorted_inv in Hs as [_ Hall].
    rewrite List.Forall_forall in Hall. now apply Hall.
  - apply StronglySorted_inv in Hs as [Hs _]. now apply IH.
Qed.

End ListFacts.

(** ** Flight category *)

Module WeatherSpec.
Import Weather ListFacts.

Lemma truthy_zero (x : float) : PrimFloat.eqb x 0 = true -> JS.truthy x = false.
Proof. intros H. unfold JS.truthy. now rewrite H. Qed.

Lemma truthy_nan (x : float) : PrimFloat.is_nan x = true -> JS.truthy x = false.
Proof. intros H. unfold JS.truthy. rewrite H. now rewrite orb_true_r. Qed.

Lemma orElse_falsy (x d : float) : JS.truthy x = false -> JS.orElse (Some x) d = d.
Proof. intros H. simpl. now rewrite H. Qed.

Lemma orElse_truthy (x d : float) : JS.truthy x = true -> JS.orElse (Some x) d = x.
Proof. intros H. simpl. now rewrite H. Qed.

(** The rule chain, on the values after the defaults were applied. *)
Lemma getFlightCategory_rules (decoded : Decoded) :
  category (getFlightCategory decoded) =
    let v := visibilityOf decoded in
    let c := ceilingOf decoded in
    if PrimFloat.ltb v 1 || PrimFloat.ltb c 500 then "LIFR"
    else if PrimFloat.ltb v 3 || PrimFloat.ltb c 1000 then "IFR"
    else if PrimFloat.ltb v 5 || PrimFloat.ltb c 3000 then "MVFR"
    else "VFR".
Proof.
  unfold getFlightCategory. cbv zeta.
  destruct (PrimFloat.ltb (visibilityOf decoded) 1 || _); [reflexivity|].
  destruct (PrimFloat.ltb (visibilityOf decoded) 3 || _); [reflexivity|].
  destruct (PrimFloat.ltb (visibilityOf decoded) 5 || _); reflexivity.
Qed.

(** A present, truthy visibility value is used as it is. *)
Lemma visibilityOf_truthy (decoded : Decoded) (v : IVisibility) :
  visibility decoded = Some v -> JS.truthy (value v) = true ->
  visibilityOf decoded = value v.
Proof. intros Hv Ht. unfold visibilityOf. rewrite Hv. now apply orElse_truthy. Qed.

Lemma visibilityOf_missing (decoded : Decoded) :
  visibility decoded = None -> visibilityOf decoded = 10%float.
Proof. intros Hv. unfold visibilityOf. now rewrite Hv. Qed.

Lemma ceilingOf_no_layer (decoded : Decoded) :
  (forall layers c, clouds decoded = Some layers -> In c layers -> isCeilingLayer c = false) ->
  ceilingOf decoded = 10000%float.
Proof.
  intros H. unfold ceilingOf, ceilingLayer.
  destruct (clouds decoded) as [layers|] eqn:E; [|reflexivity].
  assert (F : find isCeilingLayer layers = None).
  { apply find_none_iff. intros y Hy. now apply (H layers). }
  now rewrite F.
Qed.

Lemma ceilingOf_first (decoded : Decoded) (pre post : list ICloud) (c : ICloud) :
  clouds decoded = Some (pre ++ c :: post) ->
  (forall x, In x pre -> isCeilingLayer x = false) ->
  isCeilingLayer c = true ->
  ceilingOf decoded = JS.orElse (height c) 10000.
Proof.
  intros Hc Hpre Hl. unfold ceilingOf, ceilingLayer. rewrite Hc.
  now rewrite (find_first _ _ _ _ Hpre Hl).
Qed.

(** The boundary cases the specification lists. *)
Example flight_category_boundaries :
  category (getFlightCategory {| visibility := Some {| value := 0.5 |}; clouds := None |})
    = "LIFR" /\
  category (getFlightCategory (observation 10 [])) = "VFR" /\
  category (getFlightCategory (observation 10 [layer "BKN" 400])) = "LIFR" /\
  category (getFlightCategory (observation 4 [layer "OVC" 10000])) = "MVFR" /\
  category (getFlightCategory {| visibility := None; clouds := None |}) = "VFR".
Proof. repeat split; reflexivity. Qed.

(** C5, evaluated where the code leaves the rule chain: a reported
    visibility of 0 statute miles is below 1, so the first rule asks for
    LIFR, yet with no ceiling the observation is classified VFR. *)
Theorem zero_visibility_classified_VFR :
  PrimFloat.ltb 0 1 = true /\
  category (getFlightCategory (observation 0 [])) = "VFR".
Proof. split; reflexivity. Qed.

(** C10: a visibility value of exactly 0 is replaced by the default of 10
    statute miles, so that an observation with zero visibility and no
    broken or overcast layer is classified VFR; and a broken or overcast
    layer found by the ceiling search whose height is exactly 0 yields the
    default ceiling of 10000 ft. *)
Theorem zero_treated_as_missing (decoded : Decoded) :
  (forall v, visibility decoded = Some v -> PrimFloat.eqb (value v) 0 = true ->
     visibilityOf decoded = 10%float /\
     ((forall layers c, clouds decoded = Some layers -> In c layers ->
         isCeilingLayer c = false) ->
      category (getFlightCategory decoded) = "VFR")) /\
  (forall c h, ceilingLayer decoded = Some c -> height c = Some h ->
     PrimFloat.eqb h 0 = true -> ceilingOf decoded = 10000%float).
Proof.
  split.
  - intros v Hv Hz.
    assert (V : visibilityOf decoded = 10%float).
    { unfold visibilityOf. rewrite Hv. simpl. now rewrite (truthy_zero _ Hz). }
    split; [exact V|]. intros Hno.
    rewrite getFlightCategory_rules. cbv zeta.
    rewrite V, (ceilingOf_no_layer _ Hno). reflexivity.
  - intros c h Hc Hh Hz. unfold ceilingOf. rewrite Hc, Hh.
    apply orElse_falsy. now apply truthy_zero.
Qed.

Lemma zero_treated_as_missing_witness :
  visibilityOf (observation 0 [layer "FEW" 2000]) = 10%float /\
  category (getFlightCategory (observation 0 [layer "FEW" 2000])) = "VFR" /\
  ceilingOf (observation 2 [layer "OVC" 0]) = 10000%float.
Proof.
  pose proof (zero_treated_as_missing (observation 0 [layer "FEW" 2000])) as [H _].
  destruct (H {| value := 0 |} eq_refl eq_refl) as [V C].
  split; [exact V|]. split.
  - apply C. intros layers c E Hin. injection E as <-.
    destruct Hin as [<-|[]]. reflexivity.
  - pose proof (zero_treated_as_missing (observation 2 [layer "OVC" 0])) as [_ H2].
    exact (H2 (layer "OVC" 0) 0%float eq_refl eq_refl eq_refl).
Defined.

(** C6, refuted: with an overcast layer at 5000 ft listed before a broken
    layer at 400 ft, the lowest broken-or-overcast height is 400 ft, but the
    classifier uses 5000 ft and answers VFR; with the two layers in the
    other order it uses 400 ft and answers LIFR. *)
Lemma ceiling_depends_on_layer_order :
  let high := layer "OVC" 5000 in
  let low := layer "BKN" 400 in
  lowestCeiling [high; low] = Some 400%float /\
  ceilingOf (observation 10 [high; low]) = 5000%float /\
  category (getFlightCategory (observation 10 [high; low])) = "VFR" /\
  ceilingOf (observation 10 [low; high]) = 400%float /\
  category (getFlightCategory (observation 10 [low; high])) = "LIFR".
Proof. repeat split; reflexivity. Qed.

(** C6, amended: the ceiling is the height of the first layer, in list
    order, whose quantity is BKN or OVC (10000 ft when that height is
    absent or falsy); when the layers are listed by increasing height no
    later layer is below it, so it is then the lowest one; and layers of
    any other quantity never constitute a ceiling. *)
Theorem ceiling_is_first_broken_or_overcast (decoded : Decoded) :
  (forall pre c post,
     clouds decoded = Some (pre ++ c :: post) ->
     (forall x, In x pre -> isCeilingLayer x = false) ->
     isCeilingLayer c = true ->
     ceilingOf decoded = JS.orElse (height c) 10000 /\
     (StronglySorted heightLe (pre ++ c :: post) ->
      forall c', In c' post -> heightLe c c')) /\
  ((forall layers c, clouds decoded = Some layers -> In c layers ->
      isCeilingLayer c = false) ->
   ceilingOf decoded = 10000%float).
Proof.
  split.
  - intros pre c post Hc Hpre Hl. split.
    + now apply (ceilingOf_first decoded pre post c).
    + intros Hs c' Hin. now apply (sorted_after heightLe pre post c).
  - apply ceilingOf_no_layer.
Qed.

Lemma ceiling_is_first_broken_or_overcast_witness :
  let few := layer "FEW" 1000 in
  let bkn := layer "BKN" 2000 in
  let ovc := layer "OVC" 5000 in
  ceilingOf (observation 10 [few; bkn; ovc]) = 2000%float /\
  heightLe bkn ovc /\
  ceilingOf (observation 10 [few; layer "SCT" 300]) = 10000%float.
Proof.
  intros few bkn ovc.
  pose proof (ceiling_is_first_broken_or_overcast (observation 10 [few; bkn; ovc])) as [H _].
  destruct (H [few] bkn [ovc] eq_refl) as [C S].
  { intros x [<-|[]]. reflexivity. }
  { reflexivity. }
  split; [exact C|]. split.
  - apply S; [|now left].
    repeat (constructor; simpl; try reflexivity).
  - pose proof (ceiling_is_first_broken_or_overcast
                  (observation 10 [few; layer "SCT" 300])) as [_ H2].
    apply H2. intros layers c E Hin. injection E as <-.
    destruct Hin as [<-|[<-|[]]]; reflexivity.
Defined.

End WeatherSpec.

(** ** ETA *)

Module EtaSpec.
Import Eta.

(** Whenever an ETA is produced, its duration is the duration string of
    distance / groundspeed, the groundspeed being positive or NaN. *)
Lemma calculateETA_duration (h : Host) snapshot (pilot : VatsimPilot) (r : Result) :
  calculateETA h snapshot pilot = Some r ->
  exists plan a,
    flight_plan pilot = Some plan /\
    Vatspy.getAirportByIcao h snapshot (arrival plan) = Some a /\
    PrimFloat.leb (groundspeed pilot) 0 = false /\
    duration r =
      durationString h
        (calculateDistance h (latitude pilot) (longitude pilot)
           (Vatspy.latitude a) (Vatspy.longitude a) / groundspeed pilot)%float.
Proof.
  unfold calculateETA. intros H.
  destruct (flight_plan pilot) as [plan|]; [|discriminate].
  destruct (negb (JS.nonEmpty (arrival plan))); [discriminate|]. simpl in H.
  destruct (PrimFloat.leb (groundspeed pilot) 0) eqn:G; [discriminate|].
  destruct (Vatspy.getAirportByIcao h snapshot (arrival plan)) as [a|] eqn:A; [|discriminate].
  destruct (negb (JS.truthy (Vatspy.latitude a)) || negb (JS.truthy (Vatspy.longitude a)));
    [discriminate|].
  injection H as <-. exists plan, a. now repeat split.
Qed.

(** The two constants are the numbers their decimal literals denote. *)
Example constants_as_written :
  JS.parseFloat "3440.065" = R /\ JS.parseFloat "3.141592653589793" = Math_PI.
Proof. split; reflexivity. Qed.

(** Durations away from the end of an hour. *)
Example durations (h : Host) :
  durationString h 0.5 = "30m"%string /\
  durationString h 2 = "2h 0m"%string /\
  durationString h (9 / 4) = "2h 15m"%string.
Proof. repeat split; reflexivity. Qed.

(** C7, evaluated where the code leaves the claim: 255 nm at 128 kt is a
    flight time of 1.9921875 h, that is 1 h and 59.53125 min; the minutes
    round to 60 and are not carried into the hour. *)
Theorem duration_shows_sixty_minutes (h : Host) :
  JS.Math_floor (255 / 128) = 1%float /\
  JS.Math_round ((255 / 128 - 1) * 60) = 60%float /\
  durationString h (255 / 128) = "1h 60m"%string.
Proof. repeat split; reflexivity. Qed.

(** C8: the ETA computation answers "no ETA" when the groundspeed is at
    most 0, when there is no flight plan or no arrival code, when the
    arrival airport is not in the reference data, and when one of its
    coordinates is unavailable (NaN, or 0, which the test cannot tell
    from it). The function is total: it has no other outcome than a
    result or "no ETA". *)
Theorem no_eta_when_input_unavailable (h : Host) snapshot (pilot : VatsimPilot) :
  (PrimFloat.leb (groundspeed pilot) 0 = true -> calculateETA h snapshot pilot = None) /\
  (flight_plan pilot = None -> calculateETA h snapshot pilot = None) /\
  (forall plan, flight_plan pilot = Some plan ->
     (arrival plan = EmptyString \/
      Vatspy.getAirportByIcao h snapshot (arrival plan) = None \/
      (exists a, Vatspy.getAirportByIcao h snapshot (arrival plan) = Some a /\
         (JS.truthy (Vatspy.latitude a) = false \/
          JS.truthy (Vatspy.longitude a) = false))) ->
     calculateETA h snapshot pilot = None).
Proof.
  unfold calculateETA. repeat split.
  - intros G. destruct (flight_plan pilot); [|reflexivity].
    rewrite G. now rewrite orb_true_r.
  - now intros ->.
  - intros plan -> H.
    destruct (negb (JS.nonEmpty (arrival plan)) || _) eqn:E; [reflexivity|].
    destruct H as [H|[H|(a & H & Hc)]].
    + rewrite H in E. discriminate.
    + now rewrite H.
    + rewrite H. now destruct Hc as [-> | ->]; [|rewrite orb_true_r].
Qed.

Lemma no_eta_when_input_unavailable_witness :
  calculateETA plainHost ∅ (pilotTo "KJFK" 0) = None /\
  calculateETA plainHost {[ "KJFK"%string := Vatspy.airportAt "KJFK" nan (-73) ]}
    (pilotTo "KJFK" 450) = None.
Proof.
  split.
  - apply (proj1 (no_eta_when_input_unavailable plainHost ∅ (pilotTo "KJFK" 0))).
    reflexivity.
  - apply (proj2 (proj2 (no_eta_when_input_unavailable plainHost
             {[ "KJFK"%string := Vatspy.airportAt "KJFK" nan (-73) ]} (pilotTo "KJFK" 450)))
             {| arrival := "KJFK" |} eq_refl).
    right. right. exists (Vatspy.airportAt "KJFK" nan (-73)). split.
    + unfold Vatspy.getAirportByIcao. simpl. apply lookup_singleton_eq.
    + left. reflexivity.
Defined.

End EtaSpec.

(** ** Point in polygon and FIR detection *)

Module AirspaceSpec.
Import Airspace ListFacts.

(** An edge from a vertex to itself is never crossed. *)
Lemma crosses_same (lng lat : float) (p : Position) : crosses lng lat p p = false.
Proof. destruct p as [x y]. unfold crosses. now rewrite xorb_nilpotent. Qed.

(** The loop only toggles: its start value can be factored out. *)
Lemma ringLoop_xorb (lng lat : float) (rest : Ring) (pj : Position) (b : bool) :
  ringLoop lng lat pj rest b = xorb b (ringLoop lng lat pj rest false).
Proof.
  revert pj b. induction rest as [|pi rest IH]; intros pj b; simpl.
  - now rewrite xorb_false_r.
  - destruct (crosses lng lat pi pj).
    + rewrite (IH pi (negb b)), (IH pi true).
      now destruct b, (ringLoop lng lat pi rest false).
    + apply IH.
Qed.

(** The loop over two consecutive runs of vertices. *)
Lemma ringLoop_app (lng lat : float) (l1 l2 : Ring) (pj : Position) (b : bool) :
  ringLoop lng lat pj (l1 ++ l2) b =
  ringLoop lng lat (default pj (last l1)) l2 (ringLoop lng lat pj l1 b).
Proof.
  revert pj b. induction l1 as [|pi l1 IH]; intros pj b; simpl.
  - reflexivity.
  - rewrite IH. f_equal. rewrite last_cons. now destruct (last l1).
Qed.

(** Closing a ring explicitly does not change the test. *)
Lemma insideRing_closed (point : Position) (ring : Ring) :
  insideRing point (closed ring) = insideRing point ring.
Proof.
  destruct point as [lng lat]. destruct ring as [|first rest]; [reflexivity|].
  unfold closed, insideRing.
  rewrite last_snoc. change ((first :: rest) ++ [first]) with (first :: (rest ++ [first])).
  rewrite last_cons. cbn [ringLoop]. rewrite crosses_same.
  rewrite ringLoop_app. cbn [ringLoop].
  set (pl := default first (last rest)).
  replace (match last rest with Some y => Some y | None => Some first end)
    with (Some pl) by (unfold pl; now destruct (last rest)).
  rewrite (ringLoop_xorb lng lat rest first (if crosses lng lat first pl then _ else _)).
  now destruct (crosses lng lat first pl), (ringLoop lng lat first rest false).
Qed.

(** From the second ring on, the loop asks every ring to exclude the point. *)
Lemma ringsLoop_holes (point : Position) (k : nat) (rings : list Ring) :
  ringsLoop point (S k) rings = forallb (fun ring => negb (insideRing point ring)) rings.
Proof.
  revert k. induction rings as [|ring rings IH]; intros k; [reflexivity|].
  cbn [ringsLoop forallb]. change (S k =? 0)%nat with false.
  change (0 <? S k)%nat with true. cbn [andb].
  destruct (insideRing point ring); [reflexivity|]. apply IH.
Qed.

Lemma isPointInPolygon_cons (point : Position) (exterior : Ring) (holes : list Ring) :
  isPointInPolygon point (exterior :: holes) =
  insideRing point exterior && forallb (fun ring => negb (insideRing point ring)) holes.
Proof.
  unfold isPointInPolygon. cbn [ringsLoop].
  change (0 =? 0)%nat with true. change (0 <? 0)%nat with false. cbn [andb].
  destruct (insideRing point exterior); [|reflexivity].
  apply ringsLoop_holes.
Qed.

(** A polygon without rings: the loop body never runs. *)
Lemma isPointInPolygon_no_rings (point : Position) : isPointInPolygon point [] = true.
Proof. reflexivity. Qed.

(** X25: a point is inside a polygon with exterior ring and holes exactly
    when it is inside ring 0 and inside no ring of index above 0; it is
    inside a MultiPolygon exactly when it is inside one of its polygons;
    and the test of a ring that is not closed is the test of the ring
    closed by repeating its first vertex. *)
Theorem polygon_containment (point : Position) :
  (forall exterior holes,
     isPointInPolygon point (exterior :: holes) = true <->
     insideRing point exterior = true /\
     forall k hole, (exterior :: holes) !! S k = Some hole ->
                    insideRing point hole = false) /\
  (forall multiPolygon,
     isPointInMultiPolygon point multiPolygon = true <->
     exists polygon, In polygon multiPolygon /\ isPointInPolygon point polygon = true) /\
  (forall ring, insideRing point (closed ring) = insideRing point ring) /\
  (forall exterior holes,
     isPointInPolygon point (closed exterior :: map closed holes) =
     isPointInPolygon point (exterior :: holes)).
Proof.
  split; [|split; [|split]].
  - intros exterior holes. rewrite isPointInPolygon_cons, andb_true_iff.
    rewrite forallb_forall. split; intros [He Hh]; (split; [exact He|]).
    + intros k hole Hk. simpl in Hk.
      apply negb_true_iff, Hh, list_elem_of_In, list_elem_of_lookup. eauto.
    + intros hole Hin. apply negb_true_iff.
      apply list_elem_of_In, list_elem_of_lookup in Hin as [k Hk]. now apply (Hh k).
  - intros multiPolygon. unfold isPointInMultiPolygon. apply existsb_exists.
  - apply insideRing_closed.
  - intros exterior holes. rewrite !isPointInPolygon_cons, insideRing_closed.
    f_equal. induction holes as [|hole holes IH]; [reflexivity|].
    cbn [map forallb]. now rewrite insideRing_closed, IH.
Qed.

Lemma polygon_containment_witness :
  isPointInPolygon (2, 2)%float [square 0 10; square 4 6] = true /\
  insideRing (5, 5)%float (closed (square 4 6)) = true.
Proof.
  split.
  - apply (proj2 (proj1 (polygon_containment (2, 2)%float) (square 0 10) [square 4 6])).
    split; [reflexivity|].
    intros [|k] hole H; simpl in H; [|discriminate H].
    injection H as <-. reflexivity.
  - rewrite (proj1 (proj2 (proj2 (polygon_containment (5, 5)%float))) (square 4 6)).
    reflexivity.
Defined.

(** C2, evaluated where the code leaves the claim: a polygon with no ring
    has no exterior ring for a point to be inside, yet the loop over the
    rings never runs and the point is classified inside the polygon, and
    inside a MultiPolygon that holds it; a feature with such a polygon is
    detected as the FIR of the position. *)
Theorem empty_polygon_classified_inside :
  ([] : list Ring) !! 0%nat = None /\
  isPointInPolygon (5, 5)%float [] = true /\
  isPointInMultiPolygon (5, 5)%float [[]] = true /\
  fir_id <$> detectCurrentFIR ∅
               [ {| geometry := Polygon [];
                    properties := {| prop_id := Some "VOID"%string;
                                     prop_oceanic := None |} |} ]
               (5, 5)%float
  = Some "VOID"%string.
Proof. repeat split; reflexivity. Qed.

(** The square with a square hole of the specification, rings not closed. *)
Example square_with_hole :
  let polygon := [square 0 10; square 4 6] in
  isPointInPolygon (5, 5)%float polygon = false /\
  isPointInPolygon (2, 2)%float polygon = true /\
  isPointInPolygon (12, 5)%float polygon = false /\
  isPointInMultiPolygon (2, 2)%float [[square 20 30]; polygon] = true.
Proof. repeat split; reflexivity. Qed.

Lemma collectMatches_from (names : gmap string string) (point : Position)
    (features : list Feature) (acc : list FIR) :
  fold_left
    (fun matchingFIRs feature =>
       if isMatch point feature
       then matchingFIRs ++ [firOf names feature]
       else matchingFIRs)
    features acc
  = acc ++ map (firOf names) (List.filter (isMatch point) features).
Proof.
  revert acc. induction features as [|f features IH]; intros acc; simpl.
  - now rewrite app_nil_r.
  - rewrite IH. destruct (isMatch point f); [|reflexivity].
    simpl. now rewrite <- app_assoc.
Qed.

(** Every feature is tested, and every match is kept, in encounter order. *)
Lemma collectMatches_filter (names : gmap string string) (point : Position)
    (features : list Feature) :
  collectMatches names point features =
  map (firOf names) (List.filter (isMatch point) features).
Proof. unfold collectMatches. now rewrite collectMatches_from. Qed.

Lemma filter_first {A} (f : A -> bool) (l : list A) :
  List.filter f l !! 0%nat = find f l.
Proof.
  induction l as [|x l IH]; [reflexivity|]. simpl.
  now destruct (f x).
Qed.

Lemma land_of_matches (names : gmap string string) (point : Position)
    (features : list Feature) :
  List.filter (fun fir => negb (isOceanic fir))
    (map (firOf names) (List.filter (isMatch point) features))
  = map (firOf names) (List.filter (landMatch point) features).
Proof.
  induction features as [|f features IH]; [reflexivity|].
  unfold landMatch in *. simpl. destruct (isMatch point f); simpl; [|exact IH].
  destruct (oceanic f); simpl; now rewrite IH.
Qed.

(** The detection as two searches over the features. *)
Lemma detectCurrentFIR_find (names : gmap string string) (features : list Feature)
    (point : Position) :
  detectCurrentFIR names features point =
  match find (landMatch point) features with
  | Some f => Some (firOf names f)
  | None => firOf names <$> find (isMatch point) features
  end.
Proof.
  unfold detectCurrentFIR. cbv zeta.
  rewrite collectMatches_filter, land_of_matches.
  rewrite <- (filter_first (landMatch point)), <- (filter_first (isMatch point)).
  destruct (List.filter (isMatch point) features) as [|m ms] eqn:M.
  - simpl. destruct (List.filter (landMatch point) features) as [|x xs] eqn:L;
      [reflexivity|].
    assert (Hin : In x (List.filter (landMatch point) features)) by (rewrite L; now left).
    apply filter_In in Hin as [Hin Hx]. unfold landMatch in Hx.
    apply andb_true_iff in Hx as [Hx _].
    assert (Hm : In x (List.filter (isMatch point) features)) by (apply filter_In; auto).
    rewrite M in Hm. destruct Hm.
  - cbn [map length Nat.eqb].
    destruct (List.filter (landMatch point) features) as [|x xs]; reflexivity.
Qed.

(** C1: every feature is tested and all matches are collected; the first
    land-based match in encounter order is returned when there is one;
    when every match is oceanic the first match is returned; and when no
    feature contains the point the answer is none. *)
Theorem fir_classification (names : gmap string string) (features : list Feature)
    (point : Position) :
  collectMatches names point features
    = map (firOf names) (List.filter (isMatch point) features) /\
  (forall pre f post,
     features = pre ++ f :: post ->
     isMatch point f = true -> oceanic f = false ->
     (forall g, In g pre -> isMatch point g = true -> oceanic g = true) ->
     detectCurrentFIR names features point = Some (firOf names f)) /\
  (forall pre f post,
     features = pre ++ f :: post ->
     isMatch point f = true ->
     (forall g, In g pre -> isMatch point g = false) ->
     (forall g, In g features -> isMatch point g = true -> oceanic g = true) ->
     detectCurrentFIR names features point = Some (firOf names f)) /\
  ((forall g, In g features -> isMatch point g = false) ->
   detectCurrentFIR names features point = None).
Proof.
  split; [apply collectMatches_filter|].
  rewrite detectCurrentFIR_find. split; [|split].
  - intros pre f post -> Hm Hl Hpre.
    rewrite (find_first (landMatch point) pre post f); [reflexivity| |].
    + intros g Hg. unfold landMatch.
      destruct (isMatch point g) eqn:E; [|reflexivity].
      now rewrite (Hpre g Hg E).
    + unfold landMatch. now rewrite Hm, Hl.
  - intros pre f post Hf Hm Hpre Hoc.
    assert (L : find (landMatch point) features = None).
    { apply find_none_iff. intros g Hg. unfold landMatch.
      destruct (isMatch point g) eqn:E; [|reflexivity].
      now rewrite (Hoc g Hg E). }
    rewrite L, Hf. now rewrite (find_first (isMatch point) pre post f).
  - intros Hno.
    assert (M : find (isMatch point) features = None) by now apply find_none_iff.
    assert (L : find (landMatch point) features = None).
    { apply find_none_iff. intros g Hg. unfold landMatch. now rewrite (Hno g Hg). }
    now rewrite L, M.
Qed.

Lemma fir_classification_witness :
  detectCurrentFIR {[ "KZNY"%string := "New York"%string ]}
    [oceanicFeature; landFeature] (2, 2)%float
  = Some {| fir_id := "KZNY"; fir_name := "New York"; isOceanic := false |}
  /\ detectCurrentFIR ∅ [oceanicFeature; landFeature] (5, 5)%float
     = Some {| fir_id := "KZWY"; fir_name := "KZWY"; isOceanic := true |}
  /\ detectCurrentFIR ∅ [oceanicFeature; landFeature] (50, 50)%float = None.
Proof.
  split; [|split].
  - rewrite (proj1 (proj2 (fir_classification {[ "KZNY"%string := "New York"%string ]}
                             [oceanicFeature; landFeature] (2, 2)%float))
               [oceanicFeature] landFeature []); try reflexivity.
    intros g [<-|[]] _. reflexivity.
  - rewrite (proj1 (proj2 (proj2 (fir_classification ∅
                             [oceanicFeature; landFeature] (5, 5)%float)))
               [] oceanicFeature [landFeature]); try reflexivity.
    + intros g [].
    + intros g [<-|[<-|[]]]; [reflexivity|]. intros H. discriminate H.
  - apply (proj2 (proj2 (proj2 (fir_classification ∅
                           [oceanicFeature; landFeature] (50, 50)%float)))).
    intros g [<-|[<-|[]]]; reflexivity.
Defined.

End AirspaceSpec.

(** ** The reference-data parser *)

Module VatspySpec.
Import Vatspy.

Lemma nonEmpty_iff (s : string) : JS.nonEmpty s = true <-> s <> EmptyString.
Proof. destruct s; simpl; split; congruence. Qed.

Lemma admits_iff (m : gmap string VatspyAirport) (parts : list string) :
  admits m parts = true <->
  pseudoFlag parts = false /\ m !! icao (recordOf parts) = None /\
  icao (recordOf parts) <> EmptyString /\ name (recordOf parts) <> EmptyString.
Proof.
  unfold admits, pseudoFlag. cbn [icao name recordOf].
  rewrite !andb_true_iff, !negb_true_iff, !nonEmpty_iff, bool_decide_eq_false.
  rewrite <- eq_None_not_Some. tauto.
Qed.

(** What one iteration does to the map: nothing, or the insertion of the
    record of a line that passes every condition. *)
Lemma parseLine_cases (st : loopState) (line : string) :
  airports (parseLine st line) = airports st \/
  (dataLine line = true /\ inAirportsSection st = true /\
   admissible (fields line) /\
   airports st !! icao (recordOf (fields line)) = None /\
   parseLine st line =
     {| airports := <[icao (recordOf (fields line)) := recordOf (fields line)]> (airports st);
        inAirportsSection := true |}).
Proof.
  unfold parseLine, dataLine, fields. cbv zeta.
  destruct (JS.nonEmpty (JS.trim line)); [|now left]. cbn [negb orb andb].
  destruct (JS.startsWith (JS.trim line) ";"); [now left|]. cbn [negb andb].
  destruct (JS.startsWith (JS.trim line) "[" && JS.endsWithChar (JS.trim line) "]");
    [now left|]. cbn [negb].
  destruct (inAirportsSection st) eqn:S; [|now left]. cbn [negb].
  destruct (7 <=? length (JS.split "|" (JS.trim line)))%nat eqn:L; [|now left].
  destruct (admits (airports st) (JS.split "|" (JS.trim line))) eqn:A; [|now left].
  right. apply admits_iff in A as (Hp & Hn & Hi & Hm).
  apply Nat.leb_le in L. repeat split; auto.
Qed.

(** A line that passes every condition is stored. *)
Lemma parseLine_admit (st : loopState) (line : string) :
  dataLine line = true -> inAirportsSection st = true ->
  admissible (fields line) ->
  airports st !! icao (recordOf (fields line)) = None ->
  parseLine st line =
    {| airports := <[icao (recordOf (fields line)) := recordOf (fields line)]> (airports st);
       inAirportsSection := true |}.
Proof.
  unfold dataLine, fields, admissible. cbv zeta.
  intros D S (L & Hp & Hi & Hm) Hn.
  apply andb_true_iff in D as [D D3]. apply andb_true_iff in D as [D1 D2].
  apply negb_true_iff in D2, D3.
  unfold parseLine. cbv zeta. rewrite D1, D2, D3, S. cbn [negb orb].
  apply Nat.leb_le in L. rewrite L.
  assert (A : admits (airports st) (JS.split "|" (JS.trim line)) = true)
    by (apply admits_iff; auto).
  now rewrite A.
Qed.

(** A data line never changes the section flag. *)
Lemma parseLine_section (st : loopState) (line : string) :
  dataLine line = true -> inAirportsSection (parseLine st line) = inAirportsSection st.
Proof.
  unfold dataLine. cbv zeta. intros D.
  apply andb_true_iff in D as [D D3]. apply andb_true_iff in D as [D1 D2].
  apply negb_true_iff in D2, D3.
  unfold parseLine. cbv zeta. rewrite D1, D2, D3. cbn [negb orb].
  destruct (inAirportsSection st) eqn:S; cbn [negb]; [|exact S].
  destruct (7 <=? _)%nat; [|exact S].
  now destruct (admits _ _).
Qed.

(** First wins: a stored record is never replaced. *)
Lemma parseLine_keeps (st : loopState) (line : string) (k : string) (r : VatspyAirport) :
  airports st !! k = Some r -> airports (parseLine st line) !! k = Some r.
Proof.
  intros H. destruct (parseLine_cases st line) as [E|(_ & _ & _ & Hn & E)].
  - now rewrite E.
  - rewrite E. cbn [airports]. rewrite lookup_insert_ne; [exact H|].
    intros <-. rewrite Hn in H. discriminate.
Qed.

Lemma parseLines_keeps (lines : list string) (st : loopState) (k : string) (r : VatspyAirport) :
  airports st !! k = Some r -> airports (fold_left parseLine lines st) !! k = Some r.
Proof.
  revert st. induction lines as [|line lines IH]; intros st H; [exact H|].
  simpl. apply IH. now apply parseLine_keeps.
Qed.

(** Every stored record was there before, or stems from an admissible
    line among those read. *)
Lemma parseLines_origin (lines : list string) (st : loopState) (k : string) (r : VatspyAirport) :
  airports (fold_left parseLine lines st) !! k = Some r ->
  airports st !! k = Some r \/
  exists line, In line lines /\ dataLine line = true /\ admissible (fields line) /\
               r = recordOf (fields line) /\ k = icao r.
Proof.
  revert st. induction lines as [|line lines IH]; intros st H; [now left|].
  simpl in H. apply IH in H as [H|(l & Hin & Hl)].
  - destruct (parseLine_cases st line) as [E|(D & _ & Ha & _ & E)].
    + left. now rewrite <- E.
    + rewrite E in H. cbn [airports] in H.
      destruct (decide (icao (recordOf (fields line)) = k)) as [<-|Hne].
      * rewrite lookup_insert_eq in H. injection H as <-.
        right. exists line. split; [now left|]. split; [exact D|].
        split; [exact Ha|]. split; reflexivity.
      * rewrite lookup_insert_ne in H by exact Hne. now left.
  - right. exists l. split; [now right|exact Hl].
Qed.

(** A line that is not admissible leaves the map as it is. *)
Lemma parseLine_pseudo (st : loopState) (line : string) :
  pseudoFlag (fields line) = true -> airports (parseLine st line) = airports st.
Proof.
  intros Hp. destruct (parseLine_cases st line) as [E|(_ & _ & (_ & Hq & _) & _)];
    [exact E|]. rewrite Hp in Hq. discriminate.
Qed.

(** The first admissible line of a code decides the stored record. *)
Lemma first_admissible_wins (pre post : list string) (line : string) (st : loopState) :
  inAirportsSection (fold_left parseLine pre st) = true ->
  dataLine line = true -> admissible (fields line) ->
  airports (fold_left parseLine pre st) !! icao (recordOf (fields line)) = None ->
  airports (fold_left parseLine (pre ++ line :: post) st) !! icao (recordOf (fields line))
  = Some (recordOf (fields line)).
Proof.
  intros S D A N. rewrite fold_left_app. cbn [fold_left].
  apply parseLines_keeps. rewrite (parseLine_admit _ _ D S A N).
  cbn [airports]. apply lookup_insert_eq.
Qed.

(** No stored record is a pseudo record. *)
Lemma recordOf_not_pseudo (parts : list string) : isPseudo (recordOf parts) = false.
Proof. reflexivity. Qed.

(** Every stored record was there before, or was stored by a line read
    inside the airports section that passed every condition while its
    code was not yet stored. *)
Lemma parseLines_admitted (lines : list string) (st : loopState) (k : string)
    (r : VatspyAirport) :
  airports (fold_left parseLine lines st) !! k = Some r ->
  airports st !! k = Some r \/
  exists pre line post,
    lines = pre ++ line :: post /\
    inAirportsSection (fold_left parseLine pre st) = true /\
    dataLine line = true /\ admissible (fields line) /\
    airports (fold_left parseLine pre st) !! k = None /\
    r = recordOf (fields line) /\ k = icao r.
Proof.
  induction lines as [|line lines IH] using rev_ind; intros H; [now left|].
  rewrite fold_left_app in H. cbn [fold_left] in H.
  assert (K : airports (fold_left parseLine lines st) !! k = Some r ->
              airports st !! k = Some r \/
              exists pre l post,
                lines ++ [line] = pre ++ l :: post /\
                inAirportsSection (fold_left parseLine pre st) = true /\
                dataLine l = true /\ admissible (fields l) /\
                airports (fold_left parseLine pre st) !! k = None /\
                r = recordOf (fields l) /\ k = icao r).
  { intros H'. apply IH in H' as [H'|(pre & l & post & -> & Hl)]; [now left|].
    right. exists pre, l, (post ++ [line]). split; [|exact Hl].
    now rewrite <- app_assoc. }
  destruct (parseLine_cases (fold_left parseLine lines st) line)
    as [E|(D & S & A & N & E)].
  - rewrite E in H. now apply K.
  - rewrite E in H. cbn [airports] in H.
    destruct (decide (icao (recordOf (fields line)) = k)) as [<-|Hne].
    + rewrite lookup_insert_eq in H. injection H as <-.
      right. exists lines, line, []. auto 10.
    + rewrite lookup_insert_ne in H by exact Hne. now apply K.
Qed.

(** C3: a line changes the map only when it is an airport line of the
    airports section with at least seven fields whose pseudo flag is not
    "1", whose ICAO code and name are not empty and whose code is not yet
    stored. The snapshot of a text holds a record under a code exactly
    when some line of the text, read inside the airports section, passes
    these conditions while no record of the code has been admitted before
    it, and the record is the one of that line. Of two airport lines of a
    text with the same code and different names the first non-pseudo one
    provides the stored record, whatever follows. A code whose lines of
    seven fields or more in the airports section are all pseudo lines is
    not retrievable by lookup, and every record the lookup returns is
    the record of a line that is not a pseudo line. *)
Theorem admission_first_wins (text : string) :
  (forall st line,
     airports (parseLine st line) = airports st \/
     (dataLine line = true /\ inAirportsSection st = true /\
      admissible (fields line) /\
      airports st !! icao (recordOf (fields line)) = None /\
      airports (parseLine st line) =
        <[icao (recordOf (fields line)) := recordOf (fields line)]> (airports st))) /\
  (forall k r,
     parseVatspyData (Some text) !! k = Some r <->
     exists pre line post,
       linesOf text = pre ++ line :: post /\
       inAirportsSection (parseLines pre) = true /\
       dataLine line = true /\ admissible (fields line) /\
       airports (parseLines pre) !! k = None /\
       r = recordOf (fields line) /\ k = icao r) /\
  (forall pre l1 mid l2 post code,
     linesOf text = pre ++ l1 :: mid ++ l2 :: post ->
     inAirportsSection (parseLines pre) = true ->
     airports (parseLines pre) !! code = None ->
     code <> EmptyString ->
     dataLine l1 = true -> dataLine l2 = true ->
     (7 <= length (fields l1))%nat -> (7 <= length (fields l2))%nat ->
     icao (recordOf (fields l1)) = code -> icao (recordOf (fields l2)) = code ->
     name (recordOf (fields l1)) <> EmptyString ->
     name (recordOf (fields l2)) <> EmptyString ->
     name (recordOf (fields l1)) <> name (recordOf (fields l2)) ->
     (pseudoFlag (fields l1) = false ->
      parseVatspyData (Some text) !! code = Some (recordOf (fields l1)) /\
      name <$> parseVatspyData (Some text) !! code <> Some (name (recordOf (fields l2)))) /\
     (pseudoFlag (fields l1) = true -> pseudoFlag (fields l2) = false ->
      inAirportsSection (parseLines (pre ++ l1 :: mid)) = true ->
      (forall line, In line mid -> icao (recordOf (fields line)) = code ->
                    pseudoFlag (fields line) = true) ->
      parseVatspyData (Some text) !! code = Some (recordOf (fields l2)) /\
      name <$> parseVatspyData (Some text) !! code <> Some (name (recordOf (fields l1))))) /\
  (forall h code,
     (forall pre line post,
        linesOf text = pre ++ line :: post ->
        inAirportsSection (parseLines pre) = true -> dataLine line = true ->
        (7 <= length (fields line))%nat ->
        icao (recordOf (fields line)) = toUpperCase h code ->
        pseudoFlag (fields line) = true) ->
     getAirportByIcao h (parseVatspyData (Some text)) code = None) /\
  (forall h code r,
     getAirportByIcao h (parseVatspyData (Some text)) code = Some r ->
     isPseudo r = false /\
     exists line, In line (linesOf text) /\ pseudoFlag (fields line) = false /\
                  r = recordOf (fields line)).
Proof.
  assert (O : forall k r, parseVatspyData (Some text) !! k = Some r ->
     exists pre line post,
       linesOf text = pre ++ line :: post /\
       inAirportsSection (parseLines pre) = true /\
       dataLine line = true /\ admissible (fields line) /\
       airports (parseLines pre) !! k = None /\
       r = recordOf (fields line) /\ k = icao r).
  { intros k r H. unfold parseVatspyData, parseLines in H.
    apply parseLines_admitted in H as [H|H]; [|exact H].
    cbn [airports] in H. rewrite lookup_empty in H. discriminate. }
  assert (F : forall pre line post,
     linesOf text = pre ++ line :: post ->
     inAirportsSection (parseLines pre) = true ->
     dataLine line = true -> admissible (fields line) ->
     airports (parseLines pre) !! icao (recordOf (fields line)) = None ->
     parseVatspyData (Some text) !! icao (recordOf (fields line))
     = Some (recordOf (fields line))).
  { intros pre line post E S D A N. unfold parseVatspyData, parseLines.
    change (JS.split "010" text) with (linesOf text). rewrite E.
    now apply first_admissible_wins. }
  split; [|split; [|split; [|split]]].
  - intros st line.
    destruct (parseLine_cases st line) as [E|(D & S & A & N & E)]; [now left|].
    right. rewrite E. auto.
  - intros k r. split; [apply O|].
    intros (pre & line & post & E & S & D & A & N & -> & ->). now apply (F pre line post).
  - intros pre l1 mid l2 post code E S N Hc D1 D2 L1 L2 I1 I2 N1 N2 Hdiff. split.
    + intros P1.
      assert (H : parseVatspyData (Some text) !! code = Some (recordOf (fields l1))).
      { rewrite <- I1. apply (F pre l1 (mid ++ l2 :: post)); auto.
        - repeat split; auto. now rewrite I1.
        - now rewrite I1. }
      split; [exact H|]. rewrite H.
      change (Some (name (recordOf (fields l1))) <> Some (name (recordOf (fields l2)))).
      intros [= Q]. exact (Hdiff Q).
    + intros P1 P2 S2 Hmid.
      assert (H : parseVatspyData (Some text) !! code = Some (recordOf (fields l2))).
      { rewrite <- I2. apply (F (pre ++ l1 :: mid) l2 post); auto.
        - rewrite E, <- app_assoc. reflexivity.
        - repeat split; auto. now rewrite I2.
        - rewrite I2.
          destruct (airports (parseLines (pre ++ l1 :: mid)) !! code) as [v|] eqn:Q;
            [|reflexivity]. exfalso.
          unfold parseLines in Q. rewrite fold_left_app in Q.
          apply parseLines_origin in Q
            as [Q|(line & Hin & _ & (_ & Pf & _) & -> & Hk)].
          + unfold parseLines in N. congruence.
          + destruct Hin as [<-|Hin]; [congruence|].
            rewrite (Hmid line Hin (eq_sym Hk)) in Pf. discriminate. }
      split; [exact H|]. rewrite H.
      change (Some (name (recordOf (fields l2))) <> Some (name (recordOf (fields l1)))).
      intros [= Q]. exact (Hdiff (eq_sym Q)).
  - intros h code Hall. unfold getAirportByIcao.
    destruct (parseVatspyData (Some text) !! toUpperCase h code) as [r|] eqn:Q;
      [|reflexivity].
    apply O in Q as (pre & line & post & E & S & D & (L & Pf & _) & _ & -> & Hk).
    rewrite (Hall pre line post E S D L (eq_sym Hk)) in Pf. discriminate.
  - intros h code r Q. unfold getAirportByIcao in Q.
    apply O in Q as (pre & line & post & E & _ & _ & (_ & Pf & _) & _ & -> & _).
    split; [reflexivity|]. exists line. split; [|auto].
    rewrite E. apply in_or_app. right. now left.
Qed.

Lemma admission_first_wins_witness :
  name <$> parseVatspyData (Some sampleText) !! "KJFK"%string
  = Some "John F Kennedy Intl"%string /\
  name <$> parseVatspyData
             (Some (String.concat newline
                      [ "[Airports]";
                        "KJFK|Shadow of Kennedy|40.6|-73.7||KZNY|1";
                        "KJFK|John F Kennedy Intl|40.6413|-73.7781|JFK|KZNY|0" ]%string))
           !! "KJFK"%string
  = Some "John F Kennedy Intl"%string /\
  getAirportByIcao plainHost (parseVatspyData (Some sampleText)) "KPSE" = None.
Proof.
  split; [|split].
  - pose proof (admission_first_wins sampleText) as (_ & _ & H3 & _).
    destruct (H3 [ "; reference data"; "[Countries]"; "United States|K|Center|x|y|z|0";
                   "[Airports]" ]%string
                 "KJFK|John F Kennedy Intl|40.6413|-73.7781|JFK|KZNY|0"%string []
                 "KJFK|Kennedy (duplicate)|40.6|-73.7|JFK|KZNY|0"%string
                 [ "KPSE|Pseudo Field|41.0|-72.0||KZNY|1";
                   "KBAD|Bad Coordinates|abc|xyz|BAD|KZNY|0";
                   "EGLL|London Heathrow|51.4775|-0.461389|LHR|EGTT|0" ]%string
                 "KJFK"%string) as [Ha _];
      [first [reflexivity | discriminate | vm_compute; repeat constructor] .. |].
    destruct (Ha eq_refl) as [-> _]. reflexivity.
  - set (text := String.concat newline _).
    pose proof (admission_first_wins text) as (_ & _ & H3 & _).
    destruct (H3 [ "[Airports]" ]%string
                 "KJFK|Shadow of Kennedy|40.6|-73.7||KZNY|1"%string []
                 "KJFK|John F Kennedy Intl|40.6413|-73.7781|JFK|KZNY|0"%string []
                 "KJFK"%string) as [_ Hb];
      [first [reflexivity | discriminate | vm_compute; repeat constructor] .. |].
    destruct (Hb eq_refl eq_refl eq_refl) as [-> _]; [intros line []|]. reflexivity.
  - pose proof (admission_first_wins sampleText) as (_ & _ & _ & H4 & _).
    apply H4. intros pre line post E _ _ _ Hi.
    assert (Hin : In line (linesOf sampleText))
      by (rewrite E; apply in_or_app; right; now left).
    clear E. vm_compute in Hin.
    repeat (destruct Hin as [<-|Hin]; [first [reflexivity | discriminate Hi]|]).
    destruct Hin.
Defined.




End VatspySpec.

(** ** The cache under concurrent callers *)

Module CacheSpec.
Import Cache.
Local Open Scope nat_scope.

Lemma resolvedCount_app (l1 l2 : list call) :
  resolvedCount (l1 ++ l2) = (resolvedCount l1 + resolvedCount l2)%nat.
Proof. unfold resolvedCount. now rewrite List.filter_app, length_app. Qed.

(** Replacing the state of one call changes the count by that call alone. *)
Lemma resolvedCount_insert (cs : list call) (i : nat) (c c' : call) :
  cs !! i = Some c ->
  (resolvedCount (<[i := c']> cs) + (if isResolved c then 1 else 0)
   = resolvedCount cs + (if isResolved c' then 1 else 0))%nat.
Proof.
  revert i. induction cs as [|x cs IH]; intros i H; [discriminate|].
  destruct i as [|i]; simpl in H.
  - injection H as ->. change (<[0%nat := c']> (c :: cs)) with (c' :: cs).
    unfold resolvedCount. cbn [List.filter].
    destruct (isResolved c), (isResolved c'); cbn [length]; lia.
  - specialize (IH i H). change (<[S i := c']> (x :: cs)) with (x :: <[i := c']> cs).
    unfold resolvedCount in *. cbn [List.filter].
    destruct (isResolved x); cbn [length]; lia.
Qed.

(** [n] calls in a row on an empty cache: each allocates its own map and
    waits for its own fetch. *)
Lemma run_calls (text : string) (n : nat) (w : world) :
  cachedAirports w = None ->
  run text (replicate n Call) w =
  {| cachedAirports := None;
     heap := heap w ++ replicate n ∅;
     parses := parses w;
     calls := calls w ++ map AwaitFetch (seq (length (heap w)) n) |}.
Proof.
  revert w. induction n as [|n IH]; intros w H.
  - destruct w. simpl in *. subst. now rewrite !app_nil_r.
  - change (run text (replicate (S n) Call) w)
      with (run text (replicate n Call) (step text w Call)).
    assert (E : step text w Call =
                {| cachedAirports := None; heap := heap w ++ [∅];
                   parses := parses w;
                   calls := calls w ++ [AwaitFetch (length (heap w))] |})
      by (unfold step; now rewrite H).
    rewrite E, IH by reflexivity. cbn [heap calls parses].
    rewrite length_app, Nat.add_1_r, <- !app_assoc. reflexivity.
Qed.

Lemma separate_start (text : string) (n : nat) :
  separate text n (run text (replicate n Call) init).
Proof.
  rewrite run_calls by reflexivity. cbn.
  constructor; cbn.
  - now rewrite length_map, length_seq.
  - apply length_replicate.
  - intros i c H. rewrite list_lookup_fmap in H.
    apply fmap_Some in H as (j & E & ->). apply lookup_seq in E as [-> _]. reflexivity.
  - intros i H. rewrite list_lookup_fmap in H.
    apply fmap_Some in H as (j & _ & E). discriminate.
  - intros i r H. rewrite list_lookup_fmap in H.
    apply fmap_Some in H as (j & _ & E). discriminate.
  - unfold resolvedCount. induction (seq 0 n) as [|x l IH]; [reflexivity|exact IH].
Qed.

(** A successful completion keeps the callers separate. *)
Lemma separate_step (text : string) (n : nat) (w : world) (e : event) :
  succeeds e = true -> separate text n w -> separate text n (step text w e).
Proof.
  intros He [Hc Hh Ho Hd Hk Hp]. destruct e as [|i ok|i ok]; [discriminate| |];
    simpl in He; subst ok; unfold step.
  - destruct (calls w !! i) as [[a|a|a]|] eqn:E; try (constructor; assumption).
    pose proof (Ho i _ E) as Ha. simpl in Ha. subst a.
    constructor; cbn [calls heap parses cachedAirports finish].
    + now rewrite length_insert.
    + exact Hh.
    + intros j c H. destruct (decide (i = j)) as [<-|Hne].
      * rewrite list_lookup_insert_eq in H by (eapply lookup_lt_Some; eauto).
        now injection H as <-.
      * rewrite list_lookup_insert_ne in H by exact Hne. now apply Ho.
    + intros j H. destruct (decide (i = j)) as [<-|Hne].
      * rewrite list_lookup_insert_eq in H by (eapply lookup_lt_Some; eauto).
        discriminate.
      * rewrite list_lookup_insert_ne in H by exact Hne. now apply Hd.
    + intros j r H. destruct (decide (i = j)) as [<-|Hne].
      * rewrite list_lookup_insert_eq in H by (eapply lookup_lt_Some; eauto).
        discriminate.
      * rewrite list_lookup_insert_ne in H by exact Hne. now apply (Hk j r).
    + pose proof (resolvedCount_insert _ i _ (AwaitText i) E) as R. cbn [isResolved] in R. lia.
  - destruct (calls w !! i) as [[a|a|a]|] eqn:E; try (constructor; assumption).
    pose proof (Ho i _ E) as Ha. simpl in Ha. subst a.
    assert (Li : (i < length (calls w))%nat) by (eapply lookup_lt_Some; eauto).
    constructor; cbn [calls heap parses cachedAirports finish].
    + now rewrite length_insert.
    + now rewrite length_insert.
    + intros j c H. destruct (decide (i = j)) as [<-|Hne].
      * rewrite list_lookup_insert_eq in H by exact Li. now injection H as <-.
      * rewrite list_lookup_insert_ne in H by exact Hne. now apply Ho.
    + intros j H. destruct (decide (i = j)) as [<-|Hne].
      * apply list_lookup_insert_eq. lia.
      * rewrite list_lookup_insert_ne in H by exact Hne.
        rewrite list_lookup_insert_ne by exact Hne. now apply Hd.
    + intros j r _. eauto.
    + pose proof (resolvedCount_insert _ i _ (Resolved i) E) as R. cbn [isResolved] in R. lia.
Qed.

Lemma separate_run (text : string) (n : nat) (events : list event) (w : world) :
  Forall (fun e => succeeds e = true) events ->
  separate text n w -> separate text n (run text events w).
Proof.
  revert w. induction events as [|e events IH]; intros w Hall Hs; [exact Hs|].
  apply Forall_cons in Hall as [He Hall]. cbn [run fold_left].
  apply IH; [exact Hall|]. now apply separate_step.
Qed.

Lemma resolvedCount_all (cs : list call) :
  List.Forall (fun c => isResolved c = true) cs -> resolvedCount cs = length cs.
Proof.
  unfold resolvedCount. induction 1 as [|c cs Hc _ IH]; [reflexivity|].
  cbn [List.filter]. rewrite Hc. cbn [length]. now rewrite IH.
Qed.

(** C4, refuted: two callers that both start before either load has
    completed each run the loop over the lines, and they receive two
    different map objects; and a caller that arrives while the first load
    is in flight starts a fetch of its own. *)
Lemma concurrent_callers_parse_twice :
  let w := run Vatspy.sampleText
             [Call; Call; FetchDone 0 true; FetchDone 1 true;
              TextDone 0 true; TextDone 1 true] init in
  let w' := run Vatspy.sampleText [Call; FetchDone 0 true; Call] init in
  parses w = 2%nat /\ calls w = [Resolved 0; Resolved 1] /\
  cachedAirports w = Some 1%nat /\
  calls w' = [AwaitText 0; AwaitFetch 1].
Proof. repeat split; vm_compute; reflexivity. Qed.

Lemma ownLoads_init (text : string) : ownLoads text init.
Proof.
  constructor; cbn; try reflexivity; try lia; intros; try discriminate.
Qed.

(** A call that still waits is one of the callers that found the cache
    unset, and it works on its own map. *)
Lemma waiting_is_own (text : string) (w : world) (i : nat) (c : call) :
  ownLoads text w -> calls w !! i = Some c -> isResolved c = false ->
  i < length (heap w) /\ mapOf c = i.
Proof.
  intros [Hh Ho Hl Hd Hu Hc Hp] H R.
  assert (Hi : i < length (heap w)).
  { destruct (Nat.lt_ge_cases i (length (heap w))) as [?|Hge]; [assumption|].
    rewrite (Hl i c Hge H) in R. discriminate. }
  split; [exact Hi|now apply Ho].
Qed.

Lemma ownLoads_step (text : string) (w : world) (e : event) :
  noFailure e = true -> ownLoads text w -> ownLoads text (step text w e).
Proof.
  intros He I. pose proof I as [Hh Ho Hl Hd Hu Hc Hp].
  destruct e as [|i ok|i ok]; simpl in He; try subst ok; unfold step.
  - destruct (cachedAirports w) as [cached|] eqn:C.
    + constructor; cbn [calls heap parses cachedAirports].
      * rewrite length_app. cbn. lia.
      * intros j c Hj H. apply lookup_snoc_Some in H as [[_ H]|[-> _]]; [now apply Ho|lia].
      * intros j c Hj H. apply lookup_snoc_Some in H as [[_ H]|[_ <-]];
          [now apply (Hl j)|reflexivity].
      * intros j r H. split; [|eauto].
        apply lookup_snoc_Some in H as [[_ H]|[_ [= <-]]];
          [now apply (Hd j r)|now apply Hc].
      * discriminate.
      * intros c [= <-]. now apply Hc.
      * rewrite take_app_le by exact Hh. exact Hp.
    + specialize (Hu eq_refl). constructor; cbn [calls heap parses cachedAirports].
      * rewrite !length_app. cbn. lia.
      * intros j c Hj H. apply lookup_snoc_Some in H as [[Hlt H]|[-> <-]].
        -- apply Ho; [lia|exact H].
        -- cbn. lia.
      * intros j c Hj H. rewrite length_app in Hj. cbn in Hj.
        apply lookup_snoc_Some in H as [[Hlt _]|[-> _]]; lia.
      * intros j r H. apply lookup_snoc_Some in H as [[_ H]|[_ [=]]].
        destruct (Hd j r H) as [_ [x Hx]]. congruence.
      * intros _. rewrite !length_app. cbn. lia.
      * discriminate.
      * rewrite length_app. cbn [length].
        rewrite take_ge by (rewrite length_app; cbn; lia).
        rewrite resolvedCount_app. rewrite Hp, take_ge by lia.
        unfold resolvedCount at 3. cbn. lia.
  - destruct (calls w !! i) as [[a|a|a]|] eqn:E; try exact I.
    destruct (waiting_is_own text w i _ I E eq_refl) as [Hi Ha]. cbn in Ha. subst a.
    constructor; cbn [calls heap parses cachedAirports].
    + now rewrite length_insert.
    + intros j c Hj H. destruct (decide (i = j)) as [<-|Hne].
      * rewrite list_lookup_insert_eq in H by (eapply lookup_lt_Some; eauto).
        now injection H as <-.
      * rewrite list_lookup_insert_ne in H by exact Hne. now apply Ho.
    + intros j c Hj H. rewrite list_lookup_insert_ne in H by lia. now apply (Hl j).
    + intros j r H. destruct (decide (i = j)) as [<-|Hne].
      * rewrite list_lookup_insert_eq in H by (eapply lookup_lt_Some; eauto).
        discriminate.
      * rewrite list_lookup_insert_ne in H by exact Hne. now apply (Hd j).
    + intros C. rewrite length_insert. now apply Hu.
    + exact Hc.
    + rewrite take_insert_lt by exact Hi.
      assert (T : take (length (heap w)) (calls w) !! i = Some (AwaitFetch i)).
      { rewrite lookup_take. destruct (decide (i < length (heap w))); [exact E|lia]. }
      pose proof (resolvedCount_insert _ i _ (AwaitText i) T) as R.
      cbn [isResolved] in R. lia.
  - destruct (calls w !! i) as [[a|a|a]|] eqn:E; try exact I.
    destruct (waiting_is_own text w i _ I E eq_refl) as [Hi Ha]. cbn in Ha. subst a.
    assert (Li : i < length (calls w)) by (eapply lookup_lt_Some; eauto).
    unfold finish. constructor; cbn [calls heap parses cachedAirports].
    + now rewrite !length_insert.
    + rewrite length_insert. intros j c Hj H. destruct (decide (i = j)) as [<-|Hne].
      * rewrite list_lookup_insert_eq in H by exact Li. now injection H as <-.
      * rewrite list_lookup_insert_ne in H by exact Hne. now apply Ho.
    + rewrite length_insert. intros j c Hj H.
      rewrite list_lookup_insert_ne in H by lia. now apply (Hl j).
    + intros j r H. split; [|eauto]. destruct (decide (i = j)) as [<-|Hne].
      * rewrite list_lookup_insert_eq in H by exact Li. injection H as <-.
        now apply list_lookup_insert_eq.
      * rewrite list_lookup_insert_ne in H by exact Hne.
        destruct (Hd j r H) as [Hr _]. destruct (decide (i = r)) as [<-|Hir].
        -- now apply list_lookup_insert_eq.
        -- now rewrite list_lookup_insert_ne.
    + discriminate.
    + intros c [= <-]. now apply list_lookup_insert_eq.
    + rewrite length_insert, take_insert_lt by exact Hi.
      assert (T : take (length (heap w)) (calls w) !! i = Some (AwaitText i)).
      { rewrite lookup_take. destruct (decide (i < length (heap w))); [exact E|lia]. }
      pose proof (resolvedCount_insert _ i _ (Resolved i) T) as R.
      cbn [isResolved] in R. lia.
Qed.

Lemma ownLoads_run (text : string) (events : list event) (w : world) :
  Forall (fun e => noFailure e = true) events ->
  ownLoads text w -> ownLoads text (run text events w).
Proof.
  revert w. induction events as [|e events IH]; intros w Hall Hs; [exact Hs|].
  apply Forall_cons in Hall as [He Hall]. cbn [run fold_left].
  apply IH; [exact Hall|]. now apply ownLoads_step.
Qed.

(** Maps are only ever added to the heap. *)
Lemma step_heap_grows (text : string) (w : world) (e : event) :
  length (heap w) <= length (heap (step text w e)).
Proof.
  destruct e as [|i ok|i ok]; unfold step.
  - destruct (cachedAirports w); cbn; [lia|]. rewrite length_app. lia.
  - destruct (calls w !! i) as [[a|a|a]|]; try lia. now destruct ok.
  - destruct (calls w !! i) as [[a|a|a]|]; try lia.
    destruct ok; cbn; [|lia]. now rewrite length_insert.
Qed.

Lemma run_heap_grows (text : string) (events : list event) (w : world) :
  length (heap w) <= length (heap (run text events w)).
Proof.
  revert w. induction events as [|e events IH]; intros w; [reflexivity|].
  change (length (heap w) <= length (heap (run text events (step text w e)))).
  etransitivity; [apply step_heap_grows|apply IH].
Qed.

(** Once the cache is set no map is allocated any more. *)
Lemma step_heap_cached (text : string) (w : world) (e : event) :
  is_Some (cachedAirports w) ->
  is_Some (cachedAirports (step text w e)) /\
  length (heap (step text w e)) = length (heap w).
Proof.
  intros [c C]. destruct e as [|i ok|i ok]; unfold step.
  - rewrite C. cbn. eauto.
  - destruct (calls w !! i) as [[a|a|a]|]; try (split; [eauto|reflexivity]).
    destruct ok; cbn; eauto.
  - destruct (calls w !! i) as [[a|a|a]|]; try (split; [eauto|reflexivity]).
    destruct ok; cbn; [|eauto]. rewrite length_insert. eauto.
Qed.

Lemma run_heap_cached (text : string) (events : list event) (w : world) :
  is_Some (cachedAirports w) ->
  length (heap (run text events w)) = length (heap w).
Proof.
  revert w. induction events as [|e events IH]; intros w C; [reflexivity|].
  destruct (step_heap_cached text w e C) as [C' L].
  change (length (heap (run text events (step text w e))) = length (heap w)).
  now rewrite IH, L.
Qed.

(** C4, amended: a caller that requests the data once a load has
    completed receives the cached map, and neither a fetch nor a parse is
    started for it. A caller that requests the data while the cache is
    unset, whether or not other loads are in flight, allocates a map of
    its own and starts a fetch of its own. In every schedule of calls and
    successful completions, in any interleaving, the callers that found
    the cache unset come first, caller i works on map object i and, once
    resolved, holds it filled with the parsed data; every later caller is
    resolved at once to the map of one of them; and the lines are parsed
    once per resolved caller of the first kind and never for a later one.
    A caller is of the first kind exactly when the cache was unset at its
    arrival, whatever follows. In particular n callers that start before
    any completion resolve to n map objects after n parses. *)
Theorem cache_shared_only_after_load (text : string) :
  (forall w cached,
     cachedAirports w = Some cached ->
     step text w Call =
       {| cachedAirports := Some cached; heap := heap w; parses := parses w;
          calls := calls w ++ [Resolved cached] |}) /\
  (forall w,
     cachedAirports w = None ->
     step text w Call =
       {| cachedAirports := None; heap := heap w ++ [∅]; parses := parses w;
          calls := calls w ++ [AwaitFetch (length (heap w))] |}) /\
  (forall events,
     Forall (fun e => noFailure e = true) events ->
     let w := run text events init in
     let m := length (heap w) in
     m <= length (calls w) /\
     (forall i c, i < m -> calls w !! i = Some c ->
        c = AwaitFetch i \/ c = AwaitText i \/ c = Resolved i) /\
     (forall i c, m <= i -> calls w !! i = Some c ->
        exists r, c = Resolved r /\ r < m) /\
     (forall i r, calls w !! i = Some (Resolved r) ->
        heap w !! r = Some (Vatspy.parseVatspyData (Some text)) /\
        is_Some (cachedAirports w)) /\
     parses w = resolvedCount (take m (calls w)) /\
     ((forall i, i < m -> exists r, calls w !! i = Some (Resolved r)) -> parses w = m)) /\
  (forall before after,
     Forall (fun e => noFailure e = true) before ->
     let arrival := run text before init in
     let w := run text (before ++ Call :: after) init in
     cachedAirports arrival = None <-> length (calls arrival) < length (heap w)) /\
  (forall n events,
     List.Forall (fun e => succeeds e = true) events ->
     let w := run text (replicate n Call ++ events) init in
     length (calls w) = n /\
     (forall i r, calls w !! i = Some (Resolved r) ->
        r = i /\ heap w !! i = Some (Vatspy.parseVatspyData (Some text)) /\
        is_Some (cachedAirports w)) /\
     parses w = resolvedCount (calls w) /\
     (List.Forall (fun c => isResolved c = true) (calls w) -> parses w = n)).
Proof.
  split; [|split; [|split; [|split]]].
  - intros w cached H. unfold step. now rewrite H.
  - intros w H. unfold step. now rewrite H.
  - intros events Hall w m.
    assert (I : ownLoads text w) by (apply ownLoads_run; [exact Hall|apply ownLoads_init]).
    destruct I as [Hh Ho Hl Hd Hu Hc Hp]. fold m in Hh, Ho, Hl, Hp.
    split; [exact Hh|]. split; [|split; [|split; [|split]]].
    + intros i c Hi H. specialize (Ho i c Hi H).
      destruct c as [a|a|a]; cbn in Ho; subst a; auto.
    + intros i c Hi H. specialize (Hl i c Hi H).
      destruct c as [a|a|r]; try discriminate. exists r. split; [reflexivity|].
      destruct (Hd i r H) as [Hr _]. now apply lookup_lt_Some in Hr.
    + exact Hd.
    + exact Hp.
    + intros Hall'. rewrite Hp. rewrite resolvedCount_all.
      * rewrite length_take. lia.
      * apply List.Forall_forall. intros c Hin.
        apply list_elem_of_In, list_elem_of_lookup in Hin as [i Hi].
        rewrite lookup_take in Hi. destruct (decide (i < m)) as [Hlt|]; [|discriminate].
        destruct (Hall' i Hlt) as [r Hr]. rewrite Hr in Hi. now injection Hi as <-.
  - intros before after Hb arrival w.
    assert (I : ownLoads text arrival)
      by (apply ownLoads_run; [exact Hb|apply ownLoads_init]).
    assert (W : w = run text after (step text arrival Call)).
    { unfold w, arrival, run. now rewrite fold_left_app. }
    destruct (cachedAirports arrival) as [c|] eqn:C.
    + split; [discriminate|]. intros Hlt. exfalso.
      assert (L : length (heap w) = length (heap arrival)).
      { rewrite W. destruct (step_heap_cached text arrival Call) as [C' L]; [eauto|].
        now rewrite run_heap_cached, L. }
      pose proof (own_heap _ _ I). lia.
    + split; [intros _|reflexivity].
      pose proof (own_unset _ _ I C) as Hu.
      assert (L : length (heap arrival) < length (heap (step text arrival Call))).
      { unfold step. rewrite C. cbn. rewrite length_app. cbn. lia. }
      pose proof (run_heap_grows text after (step text arrival Call)) as G.
      rewrite <- W in G. lia.
  - intros n events Hall w.
    assert (S : separate text n w).
    { subst w. unfold run. rewrite fold_left_app.
      apply separate_run; [now apply List.Forall_forall, List.Forall_forall|].
      apply separate_start. }
    destruct S as [Hc Hh Ho Hd Hk Hp]. split; [exact Hc|]. split; [|split].
    + intros i r H. pose proof (Ho i _ H) as E. simpl in E. subst r.
      split; [reflexivity|]. split; [now apply Hd|now apply (Hk i i)].
    + exact Hp.
    + intros Hr. now rewrite Hp, resolvedCount_all.
Qed.

Lemma cache_shared_only_after_load_witness :
  parses (run Vatspy.sampleText
            [Call; FetchDone 0 true; Call; TextDone 0 true; Call;
             FetchDone 1 true; TextDone 1 true] init) = 2%nat.
Proof.
  pose proof (cache_shared_only_after_load Vatspy.sampleText) as (_ & _ & H & _).
  specialize (H [Call; FetchDone 0 true; Call; TextDone 0 true; Call;
                 FetchDone 1 true; TextDone 1 true]).
  destruct H as (_ & _ & _ & _ & _ & H).
  - repeat constructor.
  - apply H. intros i Hi.
    destruct i as [|[|i]]; [exists 0%nat|exists 1%nat|]; [reflexivity|reflexivity|].
    vm_compute in Hi. lia.
Defined.
End CacheSpec.

(** * Further properties of the code *)

(** ** Comparisons of numbers *)

Module FloatFacts.

(** There is one NaN. *)
Lemma is_nan_eq (x : float) : PrimFloat.is_nan x = true -> x = nan.
Proof.
  intros H. rewrite <- (SF2Prim_Prim2SF x). unfold Prim2SF. now rewrite H.
Qed.

Lemma ltb_nan_l (y : float) : PrimFloat.ltb nan y = false.
Proof. rewrite ltb_spec. reflexivity. Qed.

Lemma ltb_nan_r (x : float) : PrimFloat.ltb x nan = false.
Proof.
  rewrite ltb_spec. change (Prim2SF nan) with S754_nan.
  unfold SFltb. now destruct (Prim2SF x).
Qed.

Lemma leb_nan_l (y : float) : PrimFloat.leb nan y = false.
Proof. rewrite leb_spec. reflexivity. Qed.

Ltac pos_cmp :=
  repeat match goal with
  | |- context [PosDef.Pos.compare_cont Eq ?a ?b] =>
      change (PosDef.Pos.compare_cont Eq a b) with (Pos.compare a b)
  end.

Lemma SFleb_ltb_trans (a b c : spec_float) :
  SFleb a b = true -> SFltb b c = true -> SFltb a c = true.
Proof.
  unfold SFleb, SFltb.
  destruct a as [sa|sa| |sa ma ea], b as [sb|sb| |sb mb eb], c as [sc|sc| |sc mc ec];
    cbn [SFcompare]; try discriminate; try reflexivity;
    try (destruct sa; discriminate || reflexivity);
    try (destruct sa, sb; discriminate || reflexivity);
    try (destruct sa, sb, sc; discriminate || reflexivity);
    try (destruct sb, sc; discriminate || reflexivity).
  all: destruct sa, sb, sc; try discriminate; try reflexivity.
  all: pos_cmp.
  all: destruct (Z.compare_spec ea eb), (Z.compare_spec eb ec), (Z.compare_spec ea ec);
       try discriminate; try reflexivity; try lia.
  all: subst; destruct (Pos.compare_spec ma mb), (Pos.compare_spec mb mc),
         (Pos.compare_spec ma mc);
       cbn; try discriminate; try reflexivity; try lia.
Qed.

(** [a <= b] and [b < c] give [a < c], for all numbers. *)
Lemma leb_ltb_trans (a b c : float) :
  PrimFloat.leb a b = true -> PrimFloat.ltb b c = true -> PrimFloat.ltb a c = true.
Proof. rewrite leb_spec, !ltb_spec. apply SFleb_ltb_trans. Qed.

End FloatFacts.

(** ** FIR detection *)

Module AirspaceMore.
Import Airspace Notions ListFacts FloatFacts.

(** A position with a NaN coordinate crosses no edge. *)
Lemma crosses_nan (lng lat : float) (pi pj : Position) :
  PrimFloat.is_nan lng = true \/ PrimFloat.is_nan lat = true ->
  crosses lng lat pi pj = false.
Proof.
  destruct pi as [xi yi], pj as [xj yj]. unfold crosses. intros [H|H].
  - apply is_nan_eq in H. subst lng. rewrite ltb_nan_l. apply andb_false_r.
  - apply is_nan_eq in H. subst lat. now rewrite !ltb_nan_l.
Qed.

Lemma ringLoop_nan (lng lat : float) (rest : Ring) (pj : Position) (b : bool) :
  PrimFloat.is_nan lng = true \/ PrimFloat.is_nan lat = true ->
  ringLoop lng lat pj rest b = b.
Proof.
  intros H. revert pj b. induction rest as [|pi rest IH]; intros pj b; [reflexivity|].
  cbn [ringLoop]. rewrite (crosses_nan _ _ _ _ H). apply IH.
Qed.

Lemma insideRing_nan (point : Position) (ring : Ring) :
  PrimFloat.is_nan (fst point) = true \/ PrimFloat.is_nan (snd point) = true ->
  insideRing point ring = false.
Proof.
  destruct point as [lng lat]. cbn [fst snd]. intros H. unfold insideRing.
  destruct (last ring); [|reflexivity]. now apply ringLoop_nan.
Qed.

Lemma isMatch_nan (point : Position) (feature : Feature) :
  PrimFloat.is_nan (fst point) = true \/ PrimFloat.is_nan (snd point) = true ->
  hasExteriors feature -> isMatch point feature = false.
Proof.
  intros H W. unfold isMatch, hasExteriors in *.
  destruct (geometry feature) as [polygon|multi|t]; [| |reflexivity].
  - destruct polygon as [|exterior holes]; [congruence|].
    rewrite AirspaceSpec.isPointInPolygon_cons, (insideRing_nan _ _ H). reflexivity.
  - unfold isPointInMultiPolygon.
    destruct (existsb (isPointInPolygon point) multi) eqn:E; [|reflexivity].
    apply existsb_exists in E as (polygon & Hin & Hp).
    destruct polygon as [|exterior holes]; [now apply W in Hin|].
    rewrite AirspaceSpec.isPointInPolygon_cons, (insideRing_nan _ _ H) in Hp.
    discriminate.
Qed.

(** X1: a position one of whose coordinates is NaN lies inside no ring and
    inside no polygon that has an exterior ring, and no FIR is detected
    for it when every polygon of every feature has an exterior ring. *)
Theorem nan_position_in_no_fir (point : Position) :
  PrimFloat.is_nan (fst point) = true \/ PrimFloat.is_nan (snd point) = true ->
  (forall ring, insideRing point ring = false) /\
  (forall exterior holes, isPointInPolygon point (exterior :: holes) = false) /\
  (forall names features,
     (forall feature, In feature features -> hasExteriors feature) ->
     detectCurrentFIR names features point = None).
Proof.
  intros H. split; [|split].
  - intros ring. now apply insideRing_nan.
  - intros exterior holes.
    now rewrite AirspaceSpec.isPointInPolygon_cons, (insideRing_nan _ _ H).
  - intros names features W. rewrite AirspaceSpec.detectCurrentFIR_find.
    assert (M : find (isMatch point) features = None).
    { apply find_none_iff. intros g Hg. apply isMatch_nan; auto. }
    assert (L : find (landMatch point) features = None).
    { apply find_none_iff. intros g Hg. unfold landMatch.
      now rewrite (isMatch_nan point g H (W g Hg)). }
    now rewrite L, M.
Qed.

Lemma nan_position_in_no_fir_witness :
  detectCurrentFIR ∅ [oceanicFeature; landFeature] (nan, 5%float) = None.
Proof.
  apply (nan_position_in_no_fir (nan, 5%float)); [left; reflexivity|].
  intros feature [<-|[<-|[]]]; cbn.
  - discriminate.
  - intros polygon [<-|[<-|[]]]; discriminate.
Defined.

(** X2: a polygon without rings contains every position: a MultiPolygon
    holding such a polygon, or a Polygon feature with empty coordinates,
    matches wherever the pilot is. *)
Theorem ringless_polygon_matches_everywhere (point : Position) :
  (forall multiPolygon, In [] multiPolygon ->
     isPointInMultiPolygon point multiPolygon = true) /\
  (forall feature names features,
     geometry feature = Polygon [] \/
     (exists multiPolygon, geometry feature = MultiPolygon multiPolygon /\ In [] multiPolygon) ->
     In feature features ->
     detectCurrentFIR names features point <> None).
Proof.
  assert (A : forall multiPolygon, In [] multiPolygon ->
                isPointInMultiPolygon point multiPolygon = true).
  { intros multi Hin. unfold isPointInMultiPolygon. apply existsb_exists.
    exists []. split; [exact Hin|reflexivity]. }
  split; [exact A|].
  intros feature names features Hg Hin. rewrite AirspaceSpec.detectCurrentFIR_find.
  assert (M : isMatch point feature = true).
  { unfold isMatch. destruct Hg as [->|(multi & -> & Hm)]; [reflexivity|now apply A]. }
  destruct (find (landMatch point) features); [discriminate|].
  destruct (find (isMatch point) features) eqn:F; [discriminate|].
  rewrite (proj1 (find_none_iff _ _) F feature Hin) in M. discriminate.
Qed.

Lemma ringless_polygon_matches_everywhere_witness :
  detectCurrentFIR ∅
    [landFeature;
     {| geometry := Polygon [];
        properties := {| prop_id := None; prop_oceanic := None |} |}]
    (120, -45)%float <> None.
Proof.
  apply (proj2 (ringless_polygon_matches_everywhere (120, -45)%float)
           {| geometry := Polygon [];
              properties := {| prop_id := None; prop_oceanic := None |} |}).
  - left. reflexivity.
  - right. left. reflexivity.
Defined.

(** Starting the ring one vertex later does not change the test. *)
Lemma insideRing_shift (point : Position) (first : Position) (rest : Ring) :
  insideRing point (rest ++ [first]) = insideRing point (first :: rest).
Proof.
  destruct point as [lng lat]. unfold insideRing.
  rewrite last_snoc, last_cons, AirspaceSpec.ringLoop_app. cbn [ringLoop].
  set (pl := default first (last rest)).
  replace (match last rest with Some y => Some y | None => Some first end)
    with (Some pl) by (unfold pl; now destruct (last rest)).
  rewrite (AirspaceSpec.ringLoop_xorb lng lat rest first
             (if crosses lng lat first pl then _ else _)).
  now destruct (crosses lng lat first pl), (ringLoop lng lat first rest false).
Qed.

(** X3: the ring test does not depend on the vertex the ring is listed
    from: rotating the list of vertices leaves the answer unchanged, for
    the ring, and for a polygon whose rings are rotated. *)
Theorem ring_start_is_irrelevant (point : Position) (n : nat) :
  (forall ring : Ring, insideRing point (rotate n ring) = insideRing point ring) /\
  (forall (exterior : Ring) (holes : list Ring),
     isPointInPolygon point (rotate n exterior :: map (rotate n) holes) =
     isPointInPolygon point (exterior :: holes)).
Proof.
  assert (K : forall k (ring : Ring), insideRing point (drop k ring ++ take k ring)
                                      = insideRing point ring).
  { induction k as [|k IH]; intros ring.
    - now rewrite drop_0, app_nil_r.
    - destruct ring as [|first rest]; [reflexivity|].
      cbn [drop take].
      destruct (Nat.le_gt_cases k (length rest)) as [Hle|Hgt].
      + rewrite <- (insideRing_shift point first rest), <- (IH (rest ++ [first])).
        rewrite drop_app_le, take_app_le by exact Hle.
        now rewrite <- app_assoc.
      + rewrite (drop_ge rest), (take_ge rest) by lia. reflexivity. }
  assert (R : forall ring : Ring, insideRing point (rotate n ring) = insideRing point ring).
  { intros ring. unfold rotate. apply K. }
  split; [exact R|].
  intros exterior holes. rewrite !AirspaceSpec.isPointInPolygon_cons, R. f_equal.
  induction holes as [|hole holes IH]; [reflexivity|].
  cbn [map forallb]. now rewrite R, IH.
Qed.

Lemma strOrElse_nonEmpty (v : option string) (d : string) :
  d <> EmptyString -> JS.strOrElse v d <> EmptyString.
Proof.
  intros Hd. unfold JS.strOrElse. destruct v as [s|]; [|exact Hd].
  destruct s; [exact Hd|discriminate].
Qed.

(** The entry of a detected FIR is built from a feature of the list that
    contains the position. *)
Lemma detected_is_firOf (names : gmap string string)
    (features : list Feature) (point : Position) (fir : FIR) :
  detectCurrentFIR names features point = Some fir ->
  exists feature, In feature features /\ isMatch point feature = true /\
                  fir = firOf names feature.
Proof.
  rewrite AirspaceSpec.detectCurrentFIR_find. intros H.
  destruct (find (landMatch point) features) as [f|] eqn:L.
  - injection H as <-. apply find_some in L as [Hin Hf].
    unfold landMatch in Hf. apply andb_true_iff in Hf as [Hm _].
    exists f; auto.
  - destruct (find (isMatch point) features) as [f|] eqn:M; [|discriminate].
    injection H as <-. apply find_some in M as [Hin Hm]. exists f; auto.
Qed.

(** The id and the name of an entry are never empty, and the name is the
    non-empty listed name of the id, or else the id. *)
Lemma firOf_named (names : gmap string string) (feature : Feature) :
  let fir := firOf names feature in
  fir_id fir <> EmptyString /\ fir_name fir <> EmptyString /\
  (names !! fir_id fir = None \/ names !! fir_id fir = Some EmptyString ->
   fir_name fir = fir_id fir) /\
  (forall n, names !! fir_id fir = Some n -> n <> EmptyString -> fir_name fir = n).
Proof.
  cbn [fir_id fir_name firOf].
  set (firId := JS.strOrElse (prop_id (properties feature)) "Unknown FIR").
  assert (Hid : firId <> EmptyString) by (apply strOrElse_nonEmpty; discriminate).
  split; [exact Hid|]. split; [now apply strOrElse_nonEmpty|]. split.
  - intros [-> | ->]; reflexivity.
  - intros n -> Hn. cbn. destruct n; [congruence|reflexivity].
Qed.

(** X4: no FIR is detected exactly when no feature contains the
    position. A detected FIR is the entry of a feature of the list that
    contains the position, and it is oceanic only when every feature that
    contains the position is oceanic. *)
Theorem detection_sound_and_complete (names : gmap string string)
    (features : list Feature) (point : Position) :
  (detectCurrentFIR names features point = None <->
   forall feature, In feature features -> isMatch point feature = false) /\
  (forall fir, detectCurrentFIR names features point = Some fir ->
     (exists feature, In feature features /\ isMatch point feature = true /\
                      fir = firOf names feature) /\
     (isOceanic fir = true ->
      forall feature, In feature features -> isMatch point feature = true ->
                      oceanic feature = true)).
Proof.
  rewrite AirspaceSpec.detectCurrentFIR_find. split.
  - split.
    + intros H. destruct (find (landMatch point) features); [discriminate|].
      destruct (find (isMatch point) features) eqn:M; [discriminate|].
      now apply find_none_iff.
    + intros H.
      assert (M : find (isMatch point) features = None) by now apply find_none_iff.
      assert (L : find (landMatch point) features = None).
      { apply find_none_iff. intros g Hg. unfold landMatch. now rewrite (H g Hg). }
      now rewrite L, M.
  - intros fir H. destruct (find (landMatch point) features) as [f|] eqn:L.
    + injection H as <-. apply find_some in L as [Hin Hf].
      unfold landMatch in Hf. apply andb_true_iff in Hf as [Hm Ho].
      split; [exists f; auto|].
      cbn [isOceanic firOf]. intros Hoc. rewrite Hoc in Ho. discriminate.
    + destruct (find (isMatch point) features) as [f|] eqn:M; [|discriminate].
      injection H as <-. apply find_some in M as [Hin Hm].
      split; [exists f; auto|].
      intros _ g Hg Hgm.
      pose proof (proj1 (find_none_iff _ _) L g Hg) as Hl.
      unfold landMatch in Hl. rewrite Hgm in Hl.
      now destruct (oceanic g).
Qed.

Lemma detection_sound_and_complete_witness :
  detectCurrentFIR ∅ [oceanicFeature; landFeature] (50, 50)%float = None.
Proof.
  apply (proj1 (detection_sound_and_complete ∅ [oceanicFeature; landFeature]
                  (50, 50)%float)).
  intros feature [<-|[<-|[]]]; reflexivity.
Defined.

(** X5: a detected FIR never has an empty id or an empty name: the id
    falls back to "Unknown FIR", and the name is the non-empty name listed
    for the id, or else the id itself. *)
Theorem detected_fir_is_named (names : gmap string string)
    (features : list Feature) (point : Position) (fir : FIR) :
  detectCurrentFIR names features point = Some fir ->
  fir_id fir <> EmptyString /\ fir_name fir <> EmptyString /\
  (names !! fir_id fir = None \/ names !! fir_id fir = Some EmptyString ->
   fir_name fir = fir_id fir) /\
  (forall n, names !! fir_id fir = Some n -> n <> EmptyString -> fir_name fir = n).
Proof.
  intros H. apply detected_is_firOf in H as (f & _ & _ & ->).
  apply firOf_named.
Qed.

Lemma detected_fir_is_named_witness :
  fir_name <$> detectCurrentFIR ∅ [oceanicFeature; landFeature] (2, 2)%float
  = Some "KZNY"%string.
Proof.
  destruct (detectCurrentFIR ∅ [oceanicFeature; landFeature] (2, 2)%float)
    as [fir|] eqn:E; [|discriminate E].
  pose proof (detected_fir_is_named ∅ [oceanicFeature; landFeature] (2, 2)%float
                fir E) as (_ & _ & H & _).
  cbn. f_equal. rewrite H; [|left; apply lookup_empty].
  injection E as <-. reflexivity.
Defined.

End AirspaceMore.

(** ** The reference-data parser and the lookup *)

Module VatspyMore.
Import Vatspy Notions.

Lemma split_nonempty (sep : ascii) (s : string) : JS.split sep s <> [].
Proof.
  destruct s as [|c r]; cbn [JS.split]; [discriminate|].
  destruct (Ascii.eqb c sep); [discriminate|].
  destruct (JS.split sep r); discriminate.
Qed.

Lemma append_empty (s : string) : (EmptyString ++ s)%string = s.
Proof. reflexivity. Qed.

Lemma append_String (c : ascii) (r s : string) :
  (String c r ++ s)%string = String c (r ++ s)%string.
Proof. reflexivity. Qed.

(** Splitting a text at a separator splits at every one of them. *)
Lemma split_app (sep : ascii) (s1 s2 : string) :
  JS.split sep (s1 ++ String sep s2) = JS.split sep s1 ++ JS.split sep s2.
Proof.
  induction s1 as [|c r IH]; rewrite ?append_empty, ?append_String; cbn [JS.split].
  - now rewrite Ascii.eqb_refl.
  - destruct (Ascii.eqb c sep); [now rewrite IH|].
    rewrite IH. pose proof (split_nonempty sep r) as N.
    destruct (JS.split sep r); [congruence|reflexivity].
Qed.

Lemma trimStart_white (w s : string) :
  allWhite w = true -> JS.trimStart (w ++ s) = JS.trimStart s.
Proof.
  induction w as [|c w IH]; rewrite ?append_empty, ?append_String; cbn;
    [reflexivity|].
  intros H. apply andb_true_iff in H as [Hc Hw]. rewrite Hc. now apply IH.
Qed.

Lemma trimEnd_white (w : string) : allWhite w = true -> JS.trimEnd w = EmptyString.
Proof.
  induction w as [|c w IH]; cbn; [reflexivity|].
  intros H. apply andb_true_iff in H as [Hc Hw]. now rewrite (IH Hw), Hc.
Qed.

Lemma trimEnd_app_white (s w : string) :
  allWhite w = true -> JS.trimEnd (s ++ w) = JS.trimEnd s.
Proof.
  intros H. induction s as [|c s IH]; rewrite ?append_empty, ?append_String; cbn.
  - now apply trimEnd_white.
  - now rewrite IH.
Qed.

Lemma trimStart_all_white (s : string) :
  allWhite s = true -> JS.trimStart s = EmptyString.
Proof.
  induction s as [|c s IH]; cbn; [reflexivity|].
  intros H. apply andb_true_iff in H as [Hc Hs]. rewrite Hc. now apply IH.
Qed.

Lemma allWhite_app (a b : string) :
  allWhite (a ++ b) = allWhite a && allWhite b.
Proof.
  induction a as [|c a IH]; rewrite ?append_empty, ?append_String; cbn;
    [reflexivity|]. now rewrite IH, andb_assoc.
Qed.

(** [trimStart] of a string followed by white space. *)
Lemma trimStart_app_white (s w : string) :
  allWhite w = true ->
  JS.trimStart (s ++ w) = if allWhite s then EmptyString else (JS.trimStart s ++ w)%string.
Proof.
  intros H. induction s as [|c s IH]; rewrite ?append_empty, ?append_String; cbn.
  - now apply trimStart_all_white.
  - destruct (JS.isWhiteSpace c); cbn; [exact IH|reflexivity].
Qed.

(** White space around a line is invisible to [trim]. *)
Lemma trim_surrounded (pre line post : string) :
  allWhite pre = true -> allWhite post = true ->
  JS.trim (pre ++ line ++ post) = JS.trim line.
Proof.
  intros Hpre Hpost. unfold JS.trim.
  rewrite (trimStart_white pre _ Hpre), (trimStart_app_white line post Hpost).
  destruct (allWhite line) eqn:E.
  - now rewrite (trimStart_all_white line E).
  - now apply trimEnd_app_white.
Qed.

(** X6: white space around a line, such as the carriage return a CRLF
    file leaves at the end of each line, does not change what the parser
    does with the line. *)
Theorem surrounding_white_space_ignored (st : loopState) (pre line post : string) :
  allWhite pre = true -> allWhite post = true ->
  parseLine st (pre ++ line ++ post) = parseLine st line /\
  parseLine st (line ++ String "013" EmptyString) = parseLine st line.
Proof.
  intros Hpre Hpost.
  assert (G : forall a l b, allWhite a = true -> allWhite b = true ->
                parseLine st (a ++ l ++ b) = parseLine st l).
  { intros a l b Ha Hb. unfold parseLine. now rewrite (trim_surrounded a l b Ha Hb). }
  split; [now apply G|].
  apply (G EmptyString line (String "013" EmptyString)); reflexivity.
Qed.

Lemma surrounding_white_space_ignored_witness :
  airports (parseLine inAirports
              ("  KJFK|John F Kennedy Intl|40.6413|-73.7781|JFK|KZNY|0"
               ++ String "013" EmptyString)) !! "KJFK"%string
  = airports (parseLine inAirports
                "KJFK|John F Kennedy Intl|40.6413|-73.7781|JFK|KZNY|0") !! "KJFK"%string.
Proof.
  exact (f_equal (fun st => airports st !! "KJFK"%string)
           (proj1 (surrounding_white_space_ignored inAirports "  "
                     "KJFK|John F Kennedy Intl|40.6413|-73.7781|JFK|KZNY|0"
                     (String "013" EmptyString) eq_refl eq_refl))).
Defined.

(** Outside the airports section a line that is not the airports header
    changes neither the map nor the fact of being outside. *)
Lemma parseLine_outside (st : loopState) (line : string) :
  inAirportsSection st = false -> JS.trim line <> "[Airports]"%string ->
  airports (parseLine st line) = airports st /\
  inAirportsSection (parseLine st line) = false.
Proof.
  intros S N. unfold parseLine. cbv zeta.
  destruct (negb (JS.nonEmpty (JS.trim line)) || _); [auto|].
  destruct (JS.startsWith (JS.trim line) "[" && _).
  - cbn. split; [reflexivity|]. now apply String.eqb_neq.
  - rewrite S. auto.
Qed.

(** X7: airport lines count only inside the airports section: a dataset
    none of whose lines is the header [[Airports]] yields an empty
    snapshot, whatever its lines are. *)
Theorem no_airports_header_no_airports (text : string) :
  (forall line, In line (linesOf text) -> JS.trim line <> "[Airports]"%string) ->
  parseVatspyData (Some text) = ∅.
Proof.
  intros H. unfold parseVatspyData, parseLines. fold (linesOf text).
  assert (G : forall lines st,
             (forall line, In line lines -> JS.trim line <> "[Airports]"%string) ->
             inAirportsSection st = false ->
             airports (fold_left parseLine lines st) = airports st).
  { induction lines as [|line lines IH]; intros st Hl S; [reflexivity|].
    cbn [fold_left].
    destruct (parseLine_outside st line S (Hl line (or_introl eq_refl))) as [E1 E2].
    rewrite IH; [exact E1| |exact E2].
    intros l Hin. apply Hl. now right. }
  now rewrite G.
Qed.

Lemma no_airports_header_no_airports_witness :
  parseVatspyData
    (Some (String.concat newline
             ["[Countries]"; "KJFK|John F Kennedy Intl|40.6413|-73.7781|JFK|KZNY|0"]%string))
  = ∅.
Proof.
  apply no_airports_header_no_airports.
  intros line Hin. vm_compute in Hin.
  destruct Hin as [<-|[<-|[]]]; vm_compute; discriminate.
Defined.

(** X8: appending lines to a dataset never removes or changes an airport
    that the shorter dataset yields. *)
Theorem appended_lines_keep_airports (text more : string) :
  parseVatspyData (Some text)
  ⊆ parseVatspyData (Some (text ++ String "010" more)%string).
Proof.
  unfold parseVatspyData, parseLines. rewrite split_app, fold_left_app.
  apply map_subseteq_spec. intros k r H.
  now apply VatspySpec.parseLines_keeps.
Qed.

Lemma asciiUpper_idempotent (c : ascii) :
  Search.asciiUpper (Search.asciiUpper c) = Search.asciiUpper c.
Proof. destruct c as [[] [] [] [] [] [] [] []]; reflexivity. Qed.

Lemma upper_idempotent (s : string) :
  toUpperCase Search.asciiHost (toUpperCase Search.asciiHost s)
  = toUpperCase Search.asciiHost s.
Proof.
  cbn [toUpperCase Search.asciiHost].
  induction s as [|c s IH]; cbn; [reflexivity|].
  now rewrite asciiUpper_idempotent, IH.
Qed.

(** X9: the lookup upper-cases the code it is asked for and the parser
    stores codes as written, so, upper-casing being idempotent, a code
    is found under every spelling that upper-cases to it, while an airport
    stored under a code that is not its own upper-case form is never
    returned: the lookup answers as if that entry were absent. *)
Theorem lookup_reads_upper_case_keys (h : Host)
    (snapshot : gmap string VatspyAirport) :
  (forall s, toUpperCase h (toUpperCase h s) = toUpperCase h s) ->
  (forall code spelling,
     toUpperCase h spelling = toUpperCase h code ->
     getAirportByIcao h snapshot spelling = getAirportByIcao h snapshot code) /\
  (forall code, toUpperCase h code = code ->
     getAirportByIcao h snapshot code = snapshot !! code) /\
  (forall key, toUpperCase h key <> key ->
     forall code, getAirportByIcao h snapshot code
                  = getAirportByIcao h (delete key snapshot) code).
Proof.
  intros Hup. unfold getAirportByIcao. split; [|split].
  - now intros code spelling ->.
  - now intros code ->.
  - intros key Hkey code. rewrite lookup_delete_ne; [reflexivity|].
    intros ->. apply Hkey, Hup.
Qed.

Lemma lookup_reads_upper_case_keys_witness :
  let snapshot :=
    parseVatspyData
      (Some (String.concat newline
               ["[Airports]"; "egll|London Heathrow|51.4775|-0.461389|LHR|EGTT|0"]%string)) in
  is_Some (snapshot !! "egll"%string) /\
  getAirportByIcao Search.asciiHost snapshot "egll" = None /\
  getAirportByIcao Search.asciiHost snapshot "EGLL" = None.
Proof.
  intros snapshot.
  pose proof (lookup_reads_upper_case_keys Search.asciiHost snapshot upper_idempotent)
    as (_ & _ & H).
  split; [vm_compute; eauto|].
  split; rewrite (H "egll"%string) by (vm_compute; discriminate); reflexivity.
Defined.

End VatspyMore.

(** ** The search by name *)

Module SearchSpec.
Import Vatspy Search.
Local Open Scope nat_scope.

Lemma stores_iff (st : loopState) (line : string) :
  stores st line = true <->
  dataLine line = true /\ inAirportsSection st = true /\ admissible (fields line) /\
  airports st !! icao (recordOf (fields line)) = None.
Proof.
  unfold stores, admissible.
  rewrite !andb_true_iff, Nat.leb_le, VatspySpec.admits_iff. tauto.
Qed.

(** What one iteration does to the map and to the order of insertion. *)
Lemma orderedLine_cases (st : loopState) (order : list VatspyAirport) (line : string) :
  (stores st line = false /\ airports (parseLine st line) = airports st /\
   snd (orderedLine (st, order) line) = order) \/
  (stores st line = true /\
   airports st !! icao (recordOf (fields line)) = None /\
   airports (parseLine st line)
     = <[icao (recordOf (fields line)) := recordOf (fields line)]> (airports st) /\
   snd (orderedLine (st, order) line) = order ++ [recordOf (fields line)]).
Proof.
  unfold orderedLine. cbn [fst snd].
  destruct (stores st line) eqn:S.
  - right. apply stores_iff in S as (D & I & A & N).
    rewrite (VatspySpec.parseLine_admit st line D I A N). auto.
  - left. split; [reflexivity|]. split; [|reflexivity].
    destruct (VatspySpec.parseLine_cases st line) as [E|(D & I & A & N & _)];
      [exact E|].
    assert (T : stores st line = true) by (apply stores_iff; auto).
    rewrite T in S. discriminate.
Qed.

(** The values in insertion order are the values of the map. *)
Record agrees (st : loopState) (order : list VatspyAirport) : Prop := {
  agrees_nodup : NoDup (map icao order);
  agrees_map : forall k r, airports st !! k = Some r <-> In r order /\ icao r = k
}.

Lemma agrees_step (st : loopState) (order : list VatspyAirport) (line : string) :
  agrees st order ->
  agrees (parseLine st line) (snd (orderedLine (st, order) line)).
Proof.
  intros [Hn Hm].
  destruct (orderedLine_cases st order line) as [(_ & E & ->)|(_ & N & E & ->)].
  - constructor; [exact Hn|]. intros k r. rewrite E. apply Hm.
  - set (r0 := recordOf (fields line)) in *. constructor.
    + rewrite map_app. cbn [map]. apply NoDup_app. split; [exact Hn|]. split.
      * intros k Hk [<-|[]]%list_elem_of_In.
        apply list_elem_of_In, in_map_iff in Hk as (r & Hr & Hin).
        assert (airports st !! icao r0 = Some r) by (apply Hm; auto).
        congruence.
      * apply NoDup_singleton.
    + intros k r. rewrite E, in_app_iff. cbn [In].
      destruct (decide (icao r0 = k)) as [<-|Hne].
      * rewrite lookup_insert_eq. split.
        -- intros [= <-]. auto.
        -- intros [[Hin|[<-|[]]] Hk]; [|reflexivity].
           assert (airports st !! icao r0 = Some r) by (apply Hm; auto).
           congruence.
      * rewrite lookup_insert_ne by exact Hne. rewrite Hm. split.
        -- intros [Hin Hk]. auto.
        -- intros [[Hin|[<-|[]]] Hk]; [auto|congruence].
Qed.

Lemma orderedLines_agree (lines : list string) (st : loopState) (order : list VatspyAirport) :
  agrees st order ->
  fst (fold_left orderedLine lines (st, order)) = fold_left parseLine lines st /\
  agrees (fold_left parseLine lines st) (snd (fold_left orderedLine lines (st, order))).
Proof.
  revert st order. induction lines as [|line lines IH]; intros st order A; [auto|].
  cbn [fold_left].
  change (orderedLine (st, order) line)
    with (parseLine st line, snd (orderedLine (st, order) line)).
  apply IH. now apply agrees_step.
Qed.

(** The values of a parsed dataset hold each code once and agree with
    the snapshot. *)
Lemma valuesOf_agrees (text : string) :
  NoDup (map icao (valuesOf text)) /\
  (forall k r, parseVatspyData (Some text) !! k = Some r <->
               In r (valuesOf text) /\ icao r = k).
Proof.
  unfold valuesOf, orderedLines, parseVatspyData, parseLines. fold (linesOf text).
  destruct (orderedLines_agree (linesOf text)
              {| airports := ∅; inAirportsSection := false |} []) as [_ [Hn Hm]].
  { constructor; [constructor|]. intros k r. cbn. rewrite lookup_empty.
    split; [discriminate|intros [[] _]]. }
  split; [exact Hn|exact Hm].
Qed.

(** X10: the values the search walks are exactly the airports of the
    snapshot, each once: an airport is among them if and only if the
    snapshot holds it under its own code. *)
Theorem values_are_the_snapshot (text : string) :
  NoDup (map icao (valuesOf text)) /\
  (forall r, In r (valuesOf text) <-> parseVatspyData (Some text) !! icao r = Some r) /\
  length (valuesOf text) = size (parseVatspyData (Some text)).
Proof.
  destruct (valuesOf_agrees text) as [Hn Hm].
  split; [exact Hn|]. split.
  - intros r. rewrite Hm. tauto.
  - set (m := parseVatspyData (Some text)) in *.
    set (vs := valuesOf text) in *.
    assert (P : map_to_list m ≡ₚ map (fun r => (icao r, r)) vs).
    { apply NoDup_Permutation.
      - apply NoDup_map_to_list.
      - apply (NoDup_fmap_1 fst). rewrite <- list_fmap_compose.
        exact Hn.
      - intros [k r]. rewrite elem_of_map_to_list, Hm, list_elem_of_fmap. split.
        + intros [Hin <-]. exists r. split; [reflexivity|now apply list_elem_of_In].
        + intros (r' & [= -> ->] & Hin). split; [now apply list_elem_of_In|reflexivity]. }
    rewrite <- (length_map_to_list m), P. now rewrite length_map.
Qed.

(** The loop returns what it was given followed by the first matches,
    and stops at the first length that reaches the limit. *)
Lemma searchLoop_spec (lower : string -> string) (sl : string) (limit : float)
    (values results : list VatspyAirport) :
  exists n,
    searchLoop lower sl limit values results
      = results ++ take n (List.filter (nameMatches lower sl) values) /\
    n <= length (List.filter (nameMatches lower sl) values) /\
    (List.filter (nameMatches lower sl) values <> [] -> 1 <= n) /\
    (n < length (List.filter (nameMatches lower sl) values) ->
     PrimFloat.leb limit (JS.ofZ (Z.of_nat (length results + n))) = true) /\
    (forall k, 1 <= k < n ->
     PrimFloat.leb limit (JS.ofZ (Z.of_nat (length results + k))) = false).
Proof.
  revert results. induction values as [|a rest IH]; intros results.
  - exists 0. cbn. rewrite app_nil_r. repeat split; try lia. congruence.
  - cbn [searchLoop List.filter].
    destruct (nameMatches lower sl a) eqn:M; [|apply IH].
    destruct (PrimFloat.leb limit
                (JS.ofZ (Z.of_nat (length (results ++ [a]))))) eqn:L.
    + exists 1. cbn [take length]. rewrite take_0. repeat split; try lia.
      intros _. rewrite length_app in L. exact L.
    + destruct (IH (results ++ [a])) as (n & E & Hle & _ & Hstop & Hgo).
      exists (S n). rewrite E, <- app_assoc. cbn [take length app].
      rewrite length_app in *. cbn [length] in *.
      repeat split; try lia.
      * intros Hlt. replace (length results + S n) with (length results + 1 + n) by lia.
        apply Hstop. lia.
      * intros k Hk. destruct (decide (k = 1)) as [->|Hne]; [exact L|].
        replace (length results + k) with (length results + 1 + (k - 1)) by lia.
        apply Hgo. lia.
Qed.

(** The search returns a prefix of the matches whose length is the first
    positive number that reaches the limit, or every match. *)
Lemma search_take (lower : string -> string)
    (values : list VatspyAirport) (term : string) (limit : option float) :
  let matches := List.filter (nameMatches lower (lower term)) values in
  let lim := match limit with Some l => l | None => 10%float end in
  exists n,
    searchAirportsByName lower values term limit = take n matches /\
    n <= length matches /\
    (matches <> [] -> 1 <= n) /\
    (n < length matches -> PrimFloat.leb lim (JS.ofZ (Z.of_nat n)) = true) /\
    (forall k, 1 <= k < n -> PrimFloat.leb lim (JS.ofZ (Z.of_nat k)) = false).
Proof.
  intros matches lim.
  destruct (searchLoop_spec lower (lower term) lim values [])
    as (n & E & Hle & Hne & Hstop & Hgo).
  exists n. cbn [app length Nat.add] in *. repeat split; assumption.
Qed.

(** X11: the search returns the first airports, in insertion order, whose
    lower-cased name contains the lower-cased term: a prefix of the list
    of all matches. It returns at least one airport whenever one matches,
    whatever the limit, and it stops at the first number of results that
    is at least the limit. *)
Theorem search_returns_first_matches (lower : string -> string)
    (values : list VatspyAirport) (term : string) (limit : option float) :
  let found := searchAirportsByName lower values term limit in
  let matches := List.filter (nameMatches lower (lower term)) values in
  let lim := match limit with Some l => l | None => 10%float end in
  found = take (length found) matches /\
  (forall r, In r found -> In r values /\ includes (lower (name r)) (lower term) = true) /\
  (matches <> [] -> found <> []) /\
  (length found < length matches ->
   PrimFloat.leb lim (JS.ofZ (Z.of_nat (length found))) = true) /\
  (forall k, 1 <= k < length found ->
   PrimFloat.leb lim (JS.ofZ (Z.of_nat k)) = false).
Proof.
  intros found matches lim.
  destruct (search_take lower values term limit)
    as (n & E & Hle & Hne & Hstop & Hgo). cbv zeta in *.
  fold matches in E, Hle, Hne, Hstop.
  assert (F : found = take n matches) by exact E.
  assert (Ln : length found = n) by (rewrite F, length_take; lia).
  rewrite Ln. split; [exact F|]. split; [|split; [|split]].
  - intros r Hr. rewrite F in Hr.
    assert (Hm : In r matches).
    { rewrite <- (take_drop n matches). apply in_or_app. now left. }
    apply filter_In in Hm. exact Hm.
  - intros Hm Hf. specialize (Hne Hm). rewrite Hf in Ln. cbn in Ln. lia.
  - exact Hstop.
  - exact Hgo.
Qed.

Lemma includes_empty (s : string) : includes s EmptyString = true.
Proof. now destruct s. Qed.

(** The numbers of results below ten do not reach the default limit. *)
Lemma below_ten (k : nat) :
  k < 10 -> PrimFloat.leb 10 (JS.ofZ (Z.of_nat k)) = false.
Proof.
  intros H. do 10 (destruct k as [|k]; [reflexivity|]). lia.
Qed.

(** X12: with the limit omitted the search returns the first ten matches
    (all of them when there are fewer); with a limit of 0 it still
    returns the first match; with a NaN limit it returns every match; and
    a term that lower-cases to the empty string matches every airport. *)
Theorem search_limits (lower : string -> string) (values : list VatspyAirport)
    (term : string) :
  let matches := List.filter (nameMatches lower (lower term)) values in
  searchAirportsByName lower values term None = take 10 matches /\
  searchAirportsByName lower values term (Some 0%float) = take 1 matches /\
  searchAirportsByName lower values term (Some nan) = matches /\
  (lower term = EmptyString -> matches = values).
Proof.
  intros matches.
  assert (G : forall limit bound,
             (forall k, 1 <= k < bound ->
                PrimFloat.leb limit (JS.ofZ (Z.of_nat k)) = false) ->
             (1 <= bound) ->
             PrimFloat.leb limit (JS.ofZ (Z.of_nat bound)) = true ->
             searchAirportsByName lower values term (Some limit) = take bound matches).
  { intros limit bound Hlow Hb Hat.
    destruct (search_take lower values term (Some limit))
      as (n & F & Lm & Hne & Hstop & Hgo). cbv zeta in *.
    fold matches in F, Lm, Hne, Hstop. rewrite F.
    assert (Ub : n <= bound).
    { destruct (Nat.le_gt_cases n bound) as [?|Hgt]; [assumption|].
      rewrite (Hgo bound) in Hat by lia. discriminate. }
    destruct (Nat.eq_dec n (length matches)) as [Heq|Hneq].
    - rewrite Heq, !take_ge by lia. reflexivity.
    - assert (Hlt : n < length matches) by lia.
      specialize (Hstop Hlt).
      destruct (Nat.eq_dec n bound) as [<-|Hnb]; [reflexivity|].
      assert (1 <= n) by (apply Hne; intros Hm; rewrite Hm in Hlt; cbn in Hlt; lia).
      rewrite Hlow in Hstop by lia. discriminate. }
  split; [|split; [|split]].
  - change (searchAirportsByName lower values term None)
      with (searchAirportsByName lower values term (Some 10%float)).
    apply (G 10%float 10); [|lia|reflexivity].
    intros k Hk. apply below_ten. lia.
  - apply (G 0%float 1); [|lia|reflexivity].
    intros k Hk. lia.
  - destruct (search_take lower values term (Some nan))
      as (n & F & _ & _ & Hstop & _). cbv zeta in *. fold matches in F, Hstop.
    rewrite F.
    destruct (Nat.le_gt_cases (length matches) n) as [Hge|Hlt].
    + rewrite take_ge by lia. reflexivity.
    + specialize (Hstop Hlt). rewrite FloatFacts.leb_nan_l in Hstop. discriminate.
  - intros Ht. unfold matches. clear G matches. rewrite Ht.
    induction values as [|a rest IH]; [reflexivity|]. cbn [List.filter].
    unfold nameMatches at 1. rewrite includes_empty. now rewrite IH.
Qed.

(** X13: whatever the search returns from the values of a parsed dataset
    is an airport of the snapshot, stored under its own code, whose
    lower-cased name contains the lower-cased term. *)
Theorem search_results_are_in_snapshot (lower : string -> string) (text term : string)
    (limit : option float) (r : VatspyAirport) :
  In r (searchAirportsByName lower (valuesOf text) term limit) ->
  parseVatspyData (Some text) !! icao r = Some r /\
  isPseudo r = false /\
  includes (lower (name r)) (lower term) = true.
Proof.
  intros H.
  destruct (search_take lower (valuesOf text) term limit) as (n & F & _).
  cbv zeta in F. rewrite F in H.
  assert (Hm : In r (List.filter (nameMatches lower (lower term)) (valuesOf text))).
  { rewrite <- (take_drop n (List.filter _ _)). apply in_or_app. now left. }
  apply filter_In in Hm as [Hv Hi].
  assert (Hl : parseVatspyData (Some text) !! icao r = Some r)
    by (apply (proj2 (valuesOf_agrees text)); auto).
  clear Hv. rename Hl into Hv.
  split; [exact Hv|]. split; [|exact Hi].
  unfold parseVatspyData, parseLines in Hv.
  apply VatspySpec.parseLines_origin in Hv as [Hv|(line & _ & _ & _ & -> & _)];
    [|reflexivity].
  cbn [airports] in Hv. rewrite lookup_empty in Hv. discriminate.
Qed.

Lemma search_results_are_in_snapshot_witness :
  let r := recordOf (fields "KJFK|John F Kennedy Intl|40.6413|-73.7781|JFK|KZNY|0") in
  parseVatspyData (Some sampleText) !! icao r = Some r /\
  isPseudo r = false /\
  includes (mapChars asciiLower (name r)) (mapChars asciiLower "KENNEDY") = true.
Proof.
  intros r.
  apply (search_results_are_in_snapshot (mapChars asciiLower) sampleText "KENNEDY"
           None r).
  vm_compute. left. reflexivity.
Defined.

(** The search on the sample dataset, in insertion order. *)
Example search_sample :
  map icao (searchAirportsByName (mapChars asciiLower) (valuesOf sampleText) "o" None)
  = ["KJFK"; "KBAD"; "EGLL"]%string /\
  map icao (searchAirportsByName (mapChars asciiLower) (valuesOf sampleText) "O"
              (Some 2%float))
  = ["KJFK"; "KBAD"]%string /\
  searchAirportsByName (mapChars asciiLower) (valuesOf sampleText) "pseudo" None = [].
Proof. repeat split; vm_compute; reflexivity. Qed.

End SearchSpec.

(** ** The FIR names *)

Module FirNamesSpec.
Import FirNames.

Lemma firLine_cases (st : firState) (line : string) :
  firNames (firLine st line) = firNames st \/
  (inFIRSection st = true /\ namingLine line = true /\
   firNames st !! idOf line = None /\
   firLine st line = {| firNames := <[idOf line := nameOf line]> (firNames st);
                        inFIRSection := true |}).
Proof.
  unfold firLine, namingLine, idOf, nameOf. cbv zeta.
  destruct (String.eqb (JS.trim line) "[FIRs]"); [now left|]. cbn [negb andb].
  rewrite andb_true_r.
  destruct (JS.startsWith (JS.trim line) "[") eqn:B; [now left|].
  destruct (inFIRSection st) eqn:S; [|now left]. cbn [andb].
  destruct (JS.nonEmpty (JS.trim line)); [|now left]. cbn [andb].
  destruct (JS.startsWith (JS.trim line) ";"); [now left|]. cbn [negb andb].
  destruct (2 <=? length (JS.split "|" (JS.trim line)))%nat; [|now left].
  destruct (bool_decide (is_Some (firNames st !! _))) eqn:H; [now left|].
  right. apply bool_decide_eq_false in H. rewrite <- eq_None_not_Some in H.
  cbn [negb]. auto.
Qed.

(** A naming line read inside the section for an id not yet named is stored. *)
Lemma firLine_admit (st : firState) (line : string) :
  inFIRSection st = true -> namingLine line = true ->
  firNames st !! idOf line = None ->
  firLine st line = {| firNames := <[idOf line := nameOf line]> (firNames st);
                       inFIRSection := true |}.
Proof.
  unfold namingLine, idOf, nameOf. cbv zeta. intros S N Hn.
  apply andb_true_iff in N as [N N4]. apply andb_true_iff in N as [N N3].
  apply andb_true_iff in N as [N1 N2]. apply negb_true_iff in N2, N3.
  unfold firLine. cbv zeta.
  destruct (String.eqb (JS.trim line) "[FIRs]") eqn:Q.
  { apply String.eqb_eq in Q. rewrite Q in N3. discriminate. }
  rewrite N3, S, N1, N2, N4. cbn [negb andb].
  assert (B : bool_decide (is_Some (firNames st
                !! Vatspy.part (JS.split "|" (JS.trim line)) 0)) = false).
  { apply bool_decide_eq_false. rewrite Hn. intros [x Hx]. discriminate. }
  now rewrite B.
Qed.

Lemma firLine_keeps (st : firState) (line k v : string) :
  firNames st !! k = Some v -> firNames (firLine st line) !! k = Some v.
Proof.
  intros H. destruct (firLine_cases st line) as [E|(_ & _ & N & E)].
  - now rewrite E.
  - rewrite E. cbn [firNames]. rewrite lookup_insert_ne; [exact H|].
    intros <-. rewrite N in H. discriminate.
Qed.

Lemma firLines_keep (lines : list string) (st : firState) (k v : string) :
  firNames st !! k = Some v -> firNames (fold_left firLine lines st) !! k = Some v.
Proof.
  revert st. induction lines as [|line lines IH]; intros st H; [exact H|].
  cbn [fold_left]. apply IH. now apply firLine_keeps.
Qed.

Lemma firLines_origin (lines : list string) (st : firState) (k v : string) :
  firNames (fold_left firLine lines st) !! k = Some v ->
  firNames st !! k = Some v \/
  exists line, In line lines /\ namingLine line = true /\ idOf line = k /\ nameOf line = v.
Proof.
  revert st. induction lines as [|line lines IH]; intros st H; [now left|].
  cbn [fold_left] in H. apply IH in H as [H|(l & Hin & Hl)].
  - destruct (firLine_cases st line) as [E|(_ & Nm & _ & E)].
    + left. now rewrite <- E.
    + rewrite E in H. cbn [firNames] in H.
      destruct (decide (idOf line = k)) as [<-|Hne].
      * rewrite lookup_insert_eq in H. injection H as <-.
        right. exists line. split; [now left|auto].
      * rewrite lookup_insert_ne in H by exact Hne. now left.
  - right. exists l. split; [now right|exact Hl].
Qed.

(** A parsed name comes from a naming line of the dataset. *)
Lemma parsed_name_origin (text k v : string) :
  parseFIRNames (Some text) !! k = Some v ->
  exists line, In line (JS.split "010" text) /\ namingLine line = true /\
               idOf line = k /\ nameOf line = v.
Proof.
  intros H. unfold parseFIRNames, firLines in H.
  apply firLines_origin in H as [H|H]; [|exact H].
  cbn [firNames] in H. rewrite lookup_empty in H. discriminate.
Qed.

(** The first naming line read for an id inside the section decides. *)
Lemma first_naming_line_decides (text : string) (pre : list string) (line : string)
    (post : list string) :
  JS.split "010" text = pre ++ line :: post ->
  inFIRSection (firLines pre) = true -> namingLine line = true ->
  firNames (firLines pre) !! idOf line = None ->
  parseFIRNames (Some text) !! idOf line = Some (nameOf line).
Proof.
  intros E S N Hn. unfold parseFIRNames, firLines in *.
  rewrite E, fold_left_app. cbn [fold_left]. apply firLines_keep.
  rewrite (firLine_admit _ _ S N Hn). cbn [firNames]. apply lookup_insert_eq.
Qed.

(** X14: a FIR name comes from a naming line of the dataset, with the
    id and the name as written in its first two fields; the first naming
    line read for an id inside the FIRs section decides the name, whatever
    follows; and a failed fetch yields no names. *)
Theorem fir_names_first_wins (text : string) :
  (forall k v, parseFIRNames (Some text) !! k = Some v ->
     exists line, In line (JS.split "010" text) /\ namingLine line = true /\
                  idOf line = k /\ nameOf line = v) /\
  (forall pre line post,
     JS.split "010" text = pre ++ line :: post ->
     inFIRSection (firLines pre) = true -> namingLine line = true ->
     firNames (firLines pre) !! idOf line = None ->
     parseFIRNames (Some text) !! idOf line = Some (nameOf line)) /\
  parseFIRNames None = ∅.
Proof.
  split; [|split; [|reflexivity]].
  - intros k v. apply parsed_name_origin.
  - intros pre line post. apply first_naming_line_decides.
Qed.

Lemma fir_names_first_wins_witness :
  parseFIRNames
    (Some (String.concat Vatspy.newline
             ["[FIRs]"; "KZNY|New York|K|KZNY"; "KZNY|New York Oceanic|K|KZWY"]%string))
    !! "KZNY"%string
  = Some "New York"%string.
Proof.
  apply (proj1 (proj2 (fir_names_first_wins
           (String.concat Vatspy.newline
              ["[FIRs]"; "KZNY|New York|K|KZNY"; "KZNY|New York Oceanic|K|KZWY"]%string)))
           ["[FIRs]"%string] "KZNY|New York|K|KZNY"%string
           ["KZNY|New York Oceanic|K|KZWY"%string]); reflexivity.
Defined.

(** X15: the name shown for a detected FIR is the name of the first naming
    line of its id in the FIRs section when that name is not empty, and
    the id itself when the parsed names hold no entry for the id. *)
Theorem detected_name_comes_from_first_line (text : string)
    (features : list Airspace.Feature) (point : Airspace.Position) (fir : Airspace.FIR) :
  Airspace.detectCurrentFIR (parseFIRNames (Some text)) features point = Some fir ->
  (forall pre line post,
     JS.split "010" text = pre ++ line :: post ->
     inFIRSection (firLines pre) = true -> namingLine line = true ->
     firNames (firLines pre) !! idOf line = None ->
     idOf line = Airspace.fir_id fir -> nameOf line <> EmptyString ->
     Airspace.fir_name fir = nameOf line) /\
  ((forall line, In line (JS.split "010" text) -> namingLine line = true ->
      idOf line <> Airspace.fir_id fir) ->
   Airspace.fir_name fir = Airspace.fir_id fir).
Proof.
  intros H. apply AirspaceMore.detected_is_firOf in H as (f & _ & _ & ->).
  destruct (AirspaceMore.firOf_named (parseFIRNames (Some text)) f)
    as (_ & _ & Hnone & Hsome).
  split.
  - intros pre line post E S N Hn Hid Hname.
    apply Hsome; [|exact Hname]. rewrite <- Hid.
    now apply (first_naming_line_decides text pre line post).
  - intros Hno. apply Hnone. left.
    destruct (parseFIRNames (Some text) !! Airspace.fir_id _) as [v|] eqn:L;
      [|reflexivity].
    apply parsed_name_origin in L as (line & Hin & N & Hid & _).
    now destruct (Hno line Hin N).
Qed.

Lemma detected_name_comes_from_first_line_witness :
  Airspace.fir_name <$>
    Airspace.detectCurrentFIR
      (parseFIRNames
         (Some (String.concat Vatspy.newline
                  ["[FIRs]"; "KZNY|New York|K|KZNY"]%string)))
      [Airspace.oceanicFeature; Airspace.landFeature] (2, 2)%float
  = Some "New York"%string.
Proof.
  set (text := String.concat Vatspy.newline ["[FIRs]"; "KZNY|New York|K|KZNY"]%string).
  destruct (Airspace.detectCurrentFIR (parseFIRNames (Some text))
              [Airspace.oceanicFeature; Airspace.landFeature] (2, 2)%float)
    as [fir|] eqn:E; [|discriminate E].
  pose proof (proj1 (detected_name_comes_from_first_line text _ _ fir E)
                ["[FIRs]"%string] "KZNY|New York|K|KZNY"%string [] eq_refl eq_refl
                eq_refl eq_refl) as H.
  cbn [fmap option_fmap option_map]. f_equal. apply H.
  - injection E as <-. reflexivity.
  - discriminate.
Defined.

End FirNamesSpec.

(** ** The cache over every schedule *)

Module CacheMore.
Import Cache Notions.
Local Open Scope nat_scope.

(** What every schedule keeps: one call per [Call] event, and at most one
    run of the loop over the lines per resolved call. *)
Record counted (events : list event) (w : world) : Prop := {
  counted_calls : length (calls w) = callCount events;
  counted_parses : parses w <= resolvedCount (calls w)
}.

Lemma callCount_snoc (events : list event) (e : event) :
  callCount (events ++ [e])
  = callCount events + match e with Call => 1 | _ => 0 end.
Proof.
  unfold callCount. rewrite List.filter_app, length_app. cbn [List.filter].
  destruct e; reflexivity.
Qed.

Lemma counted_step (text : string) (events : list event) (w : world) (e : event) :
  counted events w -> counted (events ++ [e]) (step text w e).
Proof.
  intros [Hc Hp]. rewrite <- Nat.add_0_r in Hc at 1.
  destruct e as [|i ok|i ok]; unfold step.
  - destruct (cachedAirports w); constructor; cbn [calls parses];
      rewrite ?callCount_snoc, ?length_app, ?CacheSpec.resolvedCount_app; cbn; lia.
  - destruct (calls w !! i) as [[a|a|a]|] eqn:E;
      try (constructor; rewrite ?callCount_snoc; lia).
    destruct ok; constructor; cbn [calls parses finish];
      rewrite ?callCount_snoc, ?length_insert; try lia.
    + pose proof (CacheSpec.resolvedCount_insert _ i _ (AwaitText a) E) as R.
      cbn [isResolved] in R. lia.
    + pose proof (CacheSpec.resolvedCount_insert _ i _ (Resolved a) E) as R.
      cbn [isResolved] in R. lia.
  - destruct (calls w !! i) as [[a|a|a]|] eqn:E;
      try (constructor; rewrite ?callCount_snoc; lia).
    destruct ok; constructor; cbn [calls parses finish];
      rewrite ?callCount_snoc, ?length_insert; try lia.
    + pose proof (CacheSpec.resolvedCount_insert _ i _ (Resolved a) E) as R.
      cbn [isResolved] in R. lia.
    + pose proof (CacheSpec.resolvedCount_insert _ i _ (Resolved a) E) as R.
      cbn [isResolved] in R. lia.
Qed.

Lemma counted_run (text : string) (events done : list event) (w : world) :
  counted done w -> counted (done ++ events) (run text events w).
Proof.
  revert done w. induction events as [|e events IH]; intros done w H.
  - now rewrite app_nil_r.
  - cbn [run fold_left]. replace (done ++ e :: events) with ((done ++ [e]) ++ events)
      by now rewrite <- app_assoc.
    apply IH. now apply counted_step.
Qed.

(** X16: in every schedule, of successes and failures in any order, the
    dataset is parsed at most once per resolved call, hence at most once
    per call of [parseVatspyData]. *)
Theorem parses_bounded_by_calls (text : string) (events : list event) :
  let w := run text events init in
  length (calls w) = callCount events /\
  parses w <= resolvedCount (calls w) /\
  parses w <= callCount events.
Proof.
  intros w.
  destruct (counted_run text events [] init) as [Hc Hp].
  { constructor; cbn; lia. }
  cbn [app] in *. fold w in Hc, Hp.
  split; [exact Hc|]. split; [exact Hp|].
  rewrite <- Hc. unfold resolvedCount in *.
  pose proof (filter_length_le isResolved (calls w)). lia.
Qed.

Lemma step_keeps_cache (text : string) (w : world) (e : event) :
  is_Some (cachedAirports w) -> is_Some (cachedAirports (step text w e)).
Proof.
  intros H. destruct e as [|i ok|i ok]; unfold step.
  - destruct (cachedAirports w); [eauto|destruct H; discriminate].
  - destruct (calls w !! i) as [[a|a|a]|]; try exact H. destruct ok; cbn; eauto.
  - destruct (calls w !! i) as [[a|a|a]|]; try exact H. destruct ok; cbn; eauto.
Qed.

Lemma step_keeps_resolved (text : string) (w : world) (e : event) (i : nat) (r : ref) :
  calls w !! i = Some (Resolved r) -> calls (step text w e) !! i = Some (Resolved r).
Proof.
  intros H. destruct e as [|j ok|j ok]; unfold step.
  - destruct (cachedAirports w); cbn [calls]; now apply lookup_app_l_Some.
  - destruct (calls w !! j) as [[a|a|a]|] eqn:E; try exact H.
    assert (j <> i) by (intros ->; rewrite E in H; discriminate).
    destruct ok; cbn [calls finish]; now rewrite list_lookup_insert_ne.
  - destruct (calls w !! j) as [[a|a|a]|] eqn:E; try exact H.
    assert (j <> i) by (intros ->; rewrite E in H; discriminate).
    destruct ok; cbn [calls finish]; now rewrite list_lookup_insert_ne.
Qed.

(** X17: once the cache is set it is never cleared, and a call that has
    resolved keeps its result, whatever happens afterwards. *)
Theorem cache_and_results_are_kept (text : string) (events : list event) (w : world) :
  (is_Some (cachedAirports w) -> is_Some (cachedAirports (run text events w))) /\
  (forall i r, calls w !! i = Some (Resolved r) ->
     calls (run text events w) !! i = Some (Resolved r)).
Proof.
  revert w. induction events as [|e events IH]; intros w; [auto|].
  cbn [run fold_left]. destruct (IH (step text w e)) as [A B]. split.
  - intros H. now apply A, step_keeps_cache.
  - intros i r H. now apply B, step_keeps_resolved.
Qed.

Lemma cache_and_results_are_kept_witness :
  calls (run Vatspy.sampleText [Call; FetchDone 0 false; TextDone 0 true]
           (run Vatspy.sampleText [Call; FetchDone 0 true; TextDone 0 true] init))
    !! 0 = Some (Resolved 0).
Proof.
  apply (proj2 (cache_and_results_are_kept Vatspy.sampleText
                  [Call; FetchDone 0 false; TextDone 0 true]
                  (run Vatspy.sampleText [Call; FetchDone 0 true; TextDone 0 true] init))).
  reflexivity.
Defined.

(** Calls on a set cache resolve at once to the cached map. *)
Lemma run_calls_cached (text : string) (n : nat) (w : world) (cached : ref) :
  cachedAirports w = Some cached ->
  run text (replicate n Call) w =
  {| cachedAirports := Some cached; heap := heap w; parses := parses w;
     calls := calls w ++ replicate n (Resolved cached) |}.
Proof.
  revert w. induction n as [|n IH]; intros w H.
  - destruct w. cbn in *. subst. now rewrite app_nil_r.
  - change (run text (replicate (S n) Call) w)
      with (run text (replicate n Call) (step text w Call)).
    assert (E : step text w Call =
                {| cachedAirports := Some cached; heap := heap w; parses := parses w;
                   calls := calls w ++ [Resolved cached] |})
      by (unfold step; now rewrite H).
    rewrite E, IH by reflexivity. cbn [heap calls parses].
    now rewrite <- app_assoc.
Qed.

(** X18: a load that fails is not retried: when the fetch of the first
    call is rejected, or the read of its body is, the empty map becomes
    the cached snapshot, and every later call resolves to that empty map
    without a fetch or a parse. *)
Theorem failed_load_is_never_retried (text : string) (n : nat) :
  let answer :=
    {| cachedAirports := Some 0; heap := [∅]; parses := 0;
       calls := Resolved 0 :: replicate n (Resolved 0) |} in
  run text (Call :: FetchDone 0 false :: replicate n Call) init = answer /\
  run text (Call :: FetchDone 0 true :: TextDone 0 false :: replicate n Call) init
  = answer.
Proof.
  intros answer. split.
  - change (run text (Call :: FetchDone 0 false :: replicate n Call) init)
      with (run text (replicate n Call) (run text [Call; FetchDone 0 false] init)).
    now rewrite (run_calls_cached text n _ 0) by reflexivity.
  - change (run text (Call :: FetchDone 0 true :: TextDone 0 false :: replicate n Call) init)
      with (run text (replicate n Call)
              (run text [Call; FetchDone 0 true; TextDone 0 false] init)).
    now rewrite (run_calls_cached text n _ 0) by reflexivity.
Qed.

End CacheMore.

(** ** Coordinates and ETA *)

Module EtaMore.
Import Eta FlightMap.

Lemma truthy_not_nan (x : float) : JS.truthy x = true -> PrimFloat.is_nan x = false.
Proof.
  unfold JS.truthy. intros H. apply negb_true_iff, orb_false_iff in H. tauto.
Qed.

(** X19: coordinates are returned exactly for an airport that the lookup
    finds and whose latitude and longitude are both neither 0 nor NaN;
    they are then the stored ones. An airport on the equator or on the
    prime meridian, or one whose coordinate did not parse, has none. *)
Theorem coordinates_need_truthy_pair (h : Host)
    (snapshot : gmap string Vatspy.VatspyAirport) (icao : string) :
  (forall lat lon,
     getAirportCoordinates h snapshot icao = Some (lat, lon) <->
     exists a, Vatspy.getAirportByIcao h snapshot icao = Some a /\
               lat = Vatspy.latitude a /\ lon = Vatspy.longitude a /\
               JS.truthy lat = true /\ JS.truthy lon = true) /\
  (forall lat lon,
     getAirportCoordinates h snapshot icao = Some (lat, lon) ->
     PrimFloat.is_nan lat = false /\ PrimFloat.is_nan lon = false /\
     PrimFloat.eqb lat 0 = false /\ PrimFloat.eqb lon 0 = false) /\
  (forall a, Vatspy.getAirportByIcao h snapshot icao = Some a ->
     PrimFloat.eqb (Vatspy.latitude a) 0 = true \/
     PrimFloat.eqb (Vatspy.longitude a) 0 = true \/
     PrimFloat.is_nan (Vatspy.latitude a) = true \/
     PrimFloat.is_nan (Vatspy.longitude a) = true ->
     getAirportCoordinates h snapshot icao = None).
Proof.
  assert (A : forall lat lon,
     getAirportCoordinates h snapshot icao = Some (lat, lon) <->
     exists a, Vatspy.getAirportByIcao h snapshot icao = Some a /\
               lat = Vatspy.latitude a /\ lon = Vatspy.longitude a /\
               JS.truthy lat = true /\ JS.truthy lon = true).
  { intros lat lon. unfold getAirportCoordinates.
    destruct (Vatspy.getAirportByIcao h snapshot icao) as [a|].
    - destruct (JS.truthy (Vatspy.latitude a)) eqn:T1,
        (JS.truthy (Vatspy.longitude a)) eqn:T2; cbn [andb]; split;
        try discriminate.
      + intros [= <- <-]. exists a. auto.
      + intros (a' & [= <-] & -> & -> & _). reflexivity.
      + intros (a' & [= <-] & -> & -> & _ & T). congruence.
      + intros (a' & [= <-] & -> & -> & T & _). congruence.
      + intros (a' & [= <-] & -> & -> & T & _). congruence.
    - split; [discriminate|]. intros (a & E & _). discriminate. }
  split; [exact A|]. split.
  - intros lat lon H. apply A in H as (a & _ & _ & _ & T1 & T2).
    unfold JS.truthy in T1, T2.
    apply negb_true_iff, orb_false_iff in T1, T2. tauto.
  - intros a E H. unfold getAirportCoordinates. rewrite E.
    destruct H as [H|[H|[H|H]]]; unfold JS.truthy; rewrite H;
      rewrite ?orb_true_r; cbn; now rewrite ?andb_false_r.
Qed.

Lemma coordinates_need_truthy_pair_witness :
  getAirportCoordinates plainHost
    {[ "SBMQ"%string := Vatspy.airportAt "SBMQ" 0 (-51) ]} "SBMQ" = None.
Proof.
  apply (proj2 (proj2 (coordinates_need_truthy_pair plainHost
           {[ "SBMQ"%string := Vatspy.airportAt "SBMQ" 0 (-51) ]} "SBMQ"))
           (Vatspy.airportAt "SBMQ" 0 (-51))).
  - apply lookup_singleton_eq.
  - left. reflexivity.
Defined.

(** X20: an ETA is produced exactly when the pilot has a flight plan with
    a non-empty arrival code, the groundspeed is not at most 0, and the
    arrival airport has coordinates in the sense of the map component
    (the date formatting of the host returns a string on every time). *)
Theorem eta_exactly_when_coordinates (h : Host)
    (snapshot : gmap string Vatspy.VatspyAirport) (pilot : VatsimPilot) :
  is_Some (calculateETA h snapshot pilot) <->
  exists plan, flight_plan pilot = Some plan /\ arrival plan <> EmptyString /\
               PrimFloat.leb (groundspeed pilot) 0 = false /\
               is_Some (getAirportCoordinates h snapshot (arrival plan)).
Proof.
  unfold calculateETA, getAirportCoordinates.
  destruct (flight_plan pilot) as [plan|].
  2:{ split; [intros [x H]; discriminate|intros (p & H & _); discriminate]. }
  destruct (arrival plan) as [|c s] eqn:Ar.
  { cbn. split; [intros [x H]; discriminate|].
    intros (p & [= <-] & N & _). rewrite Ar in N. congruence. }
  cbn [JS.nonEmpty negb orb].
  destruct (PrimFloat.leb (groundspeed pilot) 0) eqn:G.
  { split; [intros [x H]; discriminate|]. intros (p & _ & _ & F & _). discriminate. }
  destruct (Vatspy.getAirportByIcao h snapshot (String c s)) as [a|] eqn:L.
  2:{ split; [intros [x H]; discriminate|].
      intros (p & [= <-] & _ & _ & [x H]). rewrite Ar, L in H. discriminate. }
  destruct (JS.truthy (Vatspy.latitude a)) eqn:T1,
    (JS.truthy (Vatspy.longitude a)) eqn:T2; cbn [negb orb andb].
  - split; [|eauto]. intros _. exists plan. rewrite Ar, L, T1, T2.
    split; [reflexivity|]. split; [discriminate|]. split; [reflexivity|].
    cbn. eauto.
  - split; [intros [x H]; discriminate|].
    intros (p & [= <-] & _ & _ & [x H]). rewrite Ar, L, T1, T2 in H. discriminate.
  - split; [intros [x H]; discriminate|].
    intros (p & [= <-] & _ & _ & [x H]). rewrite Ar, L, T1, T2 in H. discriminate.
  - split; [intros [x H]; discriminate|].
    intros (p & [= <-] & _ & _ & [x H]). rewrite Ar, L, T1, T2 in H. discriminate.
Qed.

End EtaMore.

(** ** The classifier as an order-preserving map *)

Module WeatherMore.
Import Weather Notions FloatFacts.
Local Open Scope nat_scope.

Lemma orElse_is_truthy (v : option float) (d : float) :
  JS.truthy d = true -> JS.truthy (JS.orElse v d) = true.
Proof.
  intros Hd. unfold JS.orElse. destruct v as [x|]; [|exact Hd].
  destruct (JS.truthy x) eqn:T; [exact T|exact Hd].
Qed.

(** X21: the visibility and the ceiling the rules are applied to are never
    0 and never NaN, whatever the observation holds, so that no rule ever
    compares against NaN. *)
Theorem classified_values_are_proper (decoded : Decoded) :
  JS.truthy (visibilityOf decoded) = true /\
  JS.truthy (ceilingOf decoded) = true /\
  PrimFloat.is_nan (visibilityOf decoded) = false /\
  PrimFloat.is_nan (ceilingOf decoded) = false.
Proof.
  assert (V : JS.truthy (visibilityOf decoded) = true)
    by (apply orElse_is_truthy; reflexivity).
  assert (C : JS.truthy (ceilingOf decoded) = true)
    by (apply orElse_is_truthy; reflexivity).
  repeat split; auto; now apply EtaMore.truthy_not_nan.
Qed.

Lemma severity_rules (decoded : Decoded) :
  severity (getFlightCategory decoded) =
    let v := visibilityOf decoded in
    let c := ceilingOf decoded in
    if PrimFloat.ltb v 1 || PrimFloat.ltb c 500 then 3
    else if PrimFloat.ltb v 3 || PrimFloat.ltb c 1000 then 2
    else if PrimFloat.ltb v 5 || PrimFloat.ltb c 3000 then 1
    else 0.
Proof.
  unfold getFlightCategory. cbv zeta.
  destruct (PrimFloat.ltb (visibilityOf decoded) 1 || _); [reflexivity|].
  destruct (PrimFloat.ltb (visibilityOf decoded) 3 || _); [reflexivity|].
  destruct (PrimFloat.ltb (visibilityOf decoded) 5 || _); reflexivity.
Qed.

(** X22: the classification is monotone: an observation whose visibility
    and ceiling, as the rules see them, are both at most those of
    another one is never given a less restrictive category. *)
Theorem worse_weather_never_better_category (worse better : Decoded) :
  PrimFloat.leb (visibilityOf worse) (visibilityOf better) = true ->
  PrimFloat.leb (ceilingOf worse) (ceilingOf better) = true ->
  severity (getFlightCategory better) <= severity (getFlightCategory worse).
Proof.
  intros Hv Hc. rewrite !severity_rules. cbv zeta.
  pose proof (fun t => leb_ltb_trans _ _ t Hv) as Tv.
  pose proof (fun t => leb_ltb_trans _ _ t Hc) as Tc.
  assert (M : forall tv tc,
            PrimFloat.ltb (visibilityOf better) tv || PrimFloat.ltb (ceilingOf better) tc = true ->
            PrimFloat.ltb (visibilityOf worse) tv || PrimFloat.ltb (ceilingOf worse) tc = true).
  { intros tv tc H. apply orb_true_iff in H as [H|H]; apply orb_true_iff; auto. }
  pose proof (M 1%float 500%float) as M1.
  pose proof (M 3%float 1000%float) as M2.
  pose proof (M 5%float 3000%float) as M3.
  destruct (PrimFloat.ltb (visibilityOf better) 1 || PrimFloat.ltb (ceilingOf better) 500);
    [rewrite M1 by reflexivity; lia|].
  destruct (PrimFloat.ltb (visibilityOf better) 3 || PrimFloat.ltb (ceilingOf better) 1000).
  { rewrite M2 by reflexivity.
    destruct (PrimFloat.ltb (visibilityOf worse) 1 || _); lia. }
  destruct (PrimFloat.ltb (visibilityOf better) 5 || PrimFloat.ltb (ceilingOf better) 3000).
  { rewrite M3 by reflexivity.
    destruct (PrimFloat.ltb (visibilityOf worse) 1 || _);
      [lia|destruct (PrimFloat.ltb (visibilityOf worse) 3 || _); lia]. }
  lia.
Qed.

Lemma worse_weather_never_better_category_witness :
  severity (getFlightCategory (observation 6 [layer "BKN" 2500]))
  <= severity (getFlightCategory (observation 2 [layer "OVC" 800; layer "OVC" 2500])).
Proof.
  apply worse_weather_never_better_category; reflexivity.
Defined.

End WeatherMore.

(** ** Stored fields, and the icon of an aircraft type *)

Module TextMore.
Import Vatspy Icon Notions.

Lemma trimStart_startsClean (s : string) : startsClean (JS.trimStart s) = true.
Proof.
  induction s as [|c s IH]; [reflexivity|]. cbn [JS.trimStart].
  destruct (JS.isWhiteSpace c) eqn:W; [exact IH|]. cbn. now rewrite W.
Qed.

Lemma trimStart_clean (s : string) : startsClean s = true -> JS.trimStart s = s.
Proof.
  destruct s as [|c s]; [reflexivity|]. cbn. intros H.
  apply negb_true_iff in H. now rewrite H.
Qed.

Lemma trimEnd_startsClean (s : string) :
  startsClean s = true -> startsClean (JS.trimEnd s) = true.
Proof.
  destruct s as [|c s]; [reflexivity|]. cbn [startsClean JS.trimEnd]. intros H.
  destruct (JS.trimEnd s); [|exact H].
  apply negb_true_iff in H. rewrite H. cbn. now rewrite H.
Qed.

Lemma trimEnd_String (c : ascii) (r : string) :
  JS.trimEnd (String c r) =
  match JS.trimEnd r with
  | EmptyString => if JS.isWhiteSpace c then EmptyString else String c EmptyString
  | r' => String c r'
  end.
Proof. reflexivity. Qed.

Lemma trimEnd_idempotent (s : string) : JS.trimEnd (JS.trimEnd s) = JS.trimEnd s.
Proof.
  induction s as [|c s IH]; [reflexivity|]. rewrite trimEnd_String.
  destruct (JS.trimEnd s) as [|d r] eqn:E.
  - destruct (JS.isWhiteSpace c) eqn:W; [reflexivity|]. cbn. now rewrite W.
  - rewrite trimEnd_String, IH. reflexivity.
Qed.

(** Trimming a trimmed string changes nothing. *)
Lemma trim_idempotent (s : string) : JS.trim (JS.trim s) = JS.trim s.
Proof.
  unfold JS.trim.
  rewrite (trimStart_clean (JS.trimEnd (JS.trimStart s))).
  - apply trimEnd_idempotent.
  - apply trimEnd_startsClean, trimStart_startsClean.
Qed.

(** X23: every airport of a snapshot is stored under its own code, and
    its code, name and FIR carry no white space at either end; code and
    name are not empty, an IATA code is absent rather than empty, and the
    pseudo flag is off. *)
Theorem stored_fields_are_trimmed (text : string) (k : string) (r : VatspyAirport) :
  parseVatspyData (Some text) !! k = Some r ->
  k = icao r /\ JS.trim k = k /\ JS.trim (name r) = name r /\ JS.trim (fir r) = fir r /\
  k <> EmptyString /\ name r <> EmptyString /\ iata r <> Some EmptyString /\
  isPseudo r = false.
Proof.
  intros H. unfold parseVatspyData, parseLines in H.
  apply VatspySpec.parseLines_origin in H as [H|(line & _ & _ & A & -> & ->)].
  { cbn [airports] in H. rewrite lookup_empty in H. discriminate. }
  destruct A as (_ & _ & Hi & Hn).
  cbn [icao name fir iata isPseudo recordOf] in *.
  rewrite !trim_idempotent. repeat split; auto.
  destruct (JS.nonEmpty (JS.trim (part (fields line) 4))) eqn:E; [|discriminate].
  intros [= Q]. rewrite Q in E. discriminate.
Qed.

Lemma stored_fields_are_trimmed_witness :
  let r := recordOf (fields "EGLL|London Heathrow|51.4775|-0.461389|LHR|EGTT|0") in
  JS.trim (name r) = name r /\ JS.trim (fir r) = fir r.
Proof.
  intros r.
  assert (H : parseVatspyData (Some sampleText) !! "EGLL"%string = Some r)
    by (vm_compute; reflexivity).
  destruct (stored_fields_are_trimmed sampleText "EGLL" r H) as (_ & _ & A & B & _).
  split; [exact A|exact B].
Defined.

Lemma keepLowerAlnum_all (s : string) : allChars isLowerAlnum (keepLowerAlnum s) = true.
Proof.
  induction s as [|c s IH]; [reflexivity|]. cbn [keepLowerAlnum].
  destruct (isLowerAlnum c) eqn:E; [|exact IH]. cbn. now rewrite E.
Qed.

Lemma keepLowerAlnum_fixed (s : string) :
  allChars isLowerAlnum s = true -> keepLowerAlnum s = s.
Proof.
  induction s as [|c s IH]; [reflexivity|]. cbn. intros H.
  apply andb_true_iff in H as [Hc Hs]. now rewrite Hc, IH.
Qed.

(** X24: the name of the icon file is made of lower-case letters and
    digits only, whatever the aircraft type and the lower-casing: the URL
    is ["/aircraft/"], such a name and [".svg"], so the type can bring in
    no slash, dot or quote. When lower-casing leaves such names as they
    are, a cleaned type is its own cleaning. *)
Theorem icon_name_is_alphanumeric (toLowerCase : string -> string)
    (aircraftType : option string) :
  allChars isLowerAlnum (cleanType toLowerCase aircraftType) = true /\
  (exists name, allChars isLowerAlnum name = true /\
     iconUrl toLowerCase aircraftType = ("/aircraft/" ++ name ++ ".svg")%string) /\
  ((forall s, allChars isLowerAlnum s = true -> toLowerCase s = s) ->
   cleanType toLowerCase (Some (cleanType toLowerCase aircraftType))
   = cleanType toLowerCase aircraftType /\
   cleanType toLowerCase None = "a20n"%string).
Proof.
  split; [apply keepLowerAlnum_all|]. split.
  { exists (cleanType toLowerCase aircraftType).
    split; [apply keepLowerAlnum_all|reflexivity]. }
  intros Hl. split.
  - unfold cleanType at 1. rewrite Hl by apply keepLowerAlnum_all.
    apply keepLowerAlnum_fixed, keepLowerAlnum_all.
  - unfold cleanType. now rewrite Hl.
Qed.

Example icon_urls :
  iconUrl (Search.mapChars Search.asciiLower) (Some "B738") = "/aircraft/b738.svg"%string /\
  iconUrl (Search.mapChars Search.asciiLower) (Some "../A-320'") = "/aircraft/a320.svg"%string /\
  iconUrl (Search.mapChars Search.asciiLower) (Some "???") = "/aircraft/.svg"%string /\
  iconUrl (Search.mapChars Search.asciiLower) None = "/aircraft/a20n.svg"%string.
Proof. repeat split; reflexivity. Qed.

End TextMore.
